(** * ilc-sdk: the request decoder and the response encoder of [IlcSdk]

    A shallow embedding of [src/index.ts].  The class [IlcSdk] reads the
    [routerProps] and [appProps] query parameters of a fragment request
    ([processRequest]) and writes the [x-head-title], [x-head-meta] and
    [Link] response headers ([processResponse]).

    The file has two layers.  The first models the part of the JavaScript
    platform that [index.ts] calls: values and property access, [Buffer]
    base64 and UTF-8 conversion, [JSON.parse], [path.relative],
    [url-join], [URLSearchParams], [for-in] enumeration and the header
    store of a [ServerResponse].  The second is the class itself, method
    by method, in a monad that threads the logger's output and carries
    thrown exceptions.

    Conventions.  A JavaScript string is represented by its UTF-8 byte
    sequence (type [string]), a lone surrogate by the three bytes of its
    code point; on strings without lone surrogates the operations of
    [index.ts] ([includes], concatenation, comparison, splitting at ASCII
    characters) commute with that encoding.  [undefined] is the value
    [VUndefined]. *)

From Stdlib Require Import String Ascii List Bool Arith NArith ZArith Lia Sorted.
From Stdlib Require Import Permutation.
Import ListNotations.

Set Warnings "-register-all".

Local Open Scope string_scope.
Local Open Scope list_scope.

(** ** Strings *)

Module Str.

(** The double quote, kept out of string literals. *)
Definition dquote : string := String (ascii_of_nat 34) EmptyString.

(** [quoted s] is [s] between double quotes. *)
Definition quoted (s : string) : string := (dquote ++ s ++ dquote)%string.

Definition chars (s : string) : list ascii := list_ascii_of_string s.
Definition of_chars (l : list ascii) : string := string_of_list_ascii l.

(** [String.prototype.startsWith]. *)
Definition startsWith (s p : string) : bool := String.prefix p s.

(** [String.prototype.includes]: [needle] occurs somewhere in [s]. *)
Fixpoint includes (s needle : string) : bool :=
  String.prefix needle s ||
  match s with
  | EmptyString => false
  | String _ r => includes r needle
  end.

(** [Array.prototype.join] on an array of strings. *)
Fixpoint join (sep : string) (l : list string) : string :=
  match l with
  | [] => ""
  | [x] => x
  | x :: r => (x ++ sep ++ join sep r)%string
  end.

(** [String.prototype.split] at one character; never returns []. *)
Fixpoint split_go (c : ascii) (cur : list ascii) (l : list ascii) : list string :=
  match l with
  | [] => [of_chars (rev cur)]
  | x :: r =>
      if Ascii.eqb x c then of_chars (rev cur) :: split_go c [] r
      else split_go c (x :: cur) r
  end.

Definition split (c : ascii) (s : string) : list string :=
  split_go c [] (chars s).

Definition is_digit (c : ascii) : bool :=
  let n := nat_of_ascii c in ((48 <=? n) && (n <=? 57))%nat.

Definition digit_val (c : ascii) : Z := Z.of_nat (nat_of_ascii c) - 48.

(** Decimal value of a run of digits, most significant first. *)
Definition decimal (l : list ascii) : Z :=
  fold_left (fun acc c => 10 * acc + digit_val c)%Z l 0%Z.

End Str.

(** ** JavaScript values, exceptions and the logger *)

Module JS.

(** Own enumerable string-keyed properties of an ordinary object, in the
    order in which they were created.  Keys are unique. *)
Definition obj (A : Type) := list (string * A).

(** The values that [JSON.parse] builds, and [undefined].  A number is
    kept as the decimal [m * 10^e] of its literal. *)
Inductive value : Type :=
| VUndefined
| VNull
| VBool (b : bool)
| VNumber (m e : Z)
| VString (s : string)
| VArray (l : list value)
| VObject (o : obj value).

Inductive exn : Type :=
| SyntaxError      (* JSON.parse on text that is not JSON *)
| TypeError        (* property of null, non-string argument, call of a non-function *)
| RangeError.      (* the parser's descent out of fuel; [JSON.parse] never throws it *)

Inductive result (A : Type) : Type :=
| Ok (a : A)
| Throw (e : exn).
Arguments Ok {A} a.
Arguments Throw {A} e.

Definition rbind {A B} (r : result A) (k : A -> result B) : result B :=
  match r with
  | Ok a => k a
  | Throw e => Throw e
  end.

(** *** Objects *)

Fixpoint lookup {A} (k : string) (o : obj A) : option A :=
  match o with
  | [] => None
  | (k', v) :: r => if String.eqb k' k then Some v else lookup k r
  end.

Definition hasOwn {A} (k : string) (o : obj A) : bool :=
  match lookup k o with Some _ => true | None => false end.

(** [CreateDataProperty]: an existing key keeps its place and takes the
    new value; a new key goes last. *)
Fixpoint set {A} (k : string) (v : A) (o : obj A) : obj A :=
  match o with
  | [] => [(k, v)]
  | (k', v') :: r =>
      if String.eqb k' k then (k', v) :: r else (k', v') :: set k v r
  end.

(** The object literal [{k1: v1, ..., kn: vn}]. *)
Definition literal {A} (kvs : list (string * A)) : obj A :=
  fold_left (fun o kv => set (fst kv) (snd kv) o) kvs [].

(** [v.k] for a name [k] that no built-in prototype defines (the three
    names read by [index.ts]: [basePath], [reqUrl], [publicPath]). *)
Definition getProp (v : value) (k : string) : result value :=
  match v with
  | VUndefined | VNull => Throw TypeError
  | VObject o => Ok (match lookup k o with Some x => x | None => VUndefined end)
  | _ => Ok VUndefined
  end.

(** [ToBoolean].  A number literal is falsy when its double is zero:
    the decimal is 0, or at most 2^-1075 in magnitude and so rounds to 0. *)
Definition number_is_zero (m e : Z) : bool :=
  ((m =? 0) || ((e <? 0) && (Z.abs m * 2 ^ 1075 <=? 10 ^ (- e))))%Z.

Definition truthy (v : value) : bool :=
  match v with
  | VUndefined | VNull => false
  | VBool b => b
  | VNumber m e => negb (number_is_zero m e)
  | VString s => negb (String.eqb s "")
  | VArray _ | VObject _ => true
  end.

(** *** [for (k in o)] over own properties

    An ordinary object enumerates its array-index keys first, in
    ascending numeric order, then its other string keys in creation
    order. *)

(** A canonical array index: the decimal of an integer below 2^32 - 1,
    without sign or leading zero. *)
Definition arrayIndex (k : string) : option Z :=
  match Str.chars k with
  | [] => None
  | c :: r =>
      if forallb Str.is_digit (c :: r)
         && (negb (Ascii.eqb c "0") || match r with [] => true | _ => false end)
         && (length (c :: r) <=? 10)%nat
      then let n := Str.decimal (c :: r) in
           if (n <? 4294967295)%Z then Some n else None
      else None
  end.

Fixpoint insert_sorted (n : Z) (k : string) (l : list (Z * string)) : list (Z * string) :=
  match l with
  | [] => [(n, k)]
  | (m, k') :: r =>
      if (n <? m)%Z then (n, k) :: (m, k') :: r else (m, k') :: insert_sorted n k r
  end.

(** The array-index keys with their numbers, smallest first. *)
Definition index_pairs {A} (o : obj A) : list (Z * string) :=
  fold_left
    (fun acc kv => match arrayIndex (fst kv) with
                   | Some n => insert_sorted n (fst kv) acc
                   | None => acc
                   end) o [].

Definition index_keys {A} (o : obj A) : list string :=
  map snd (index_pairs o).

Definition name_keys {A} (o : obj A) : list string :=
  filter (fun k => match arrayIndex k with Some _ => false | None => true end)
         (map fst o).

Definition ownKeys {A} (o : obj A) : list string :=
  index_keys o ++ name_keys o.

(** *** The logger

    [logger.warn(message, ...rest)]: the sink records each call. *)
Record warning : Type := Warning {
  message : string;
  detail : option exn
}.

Definition Log := list warning.

(** Computations on a mutable state [S] (the logger's sink, the
    response) that may throw.  What was written before a throw stays
    written. *)
Definition M (S A : Type) : Type := S -> result A * S.

Definition ret {S A} (a : A) : M S A := fun s => (Ok a, s).
Definition throw {S A} (e : exn) : M S A := fun s => (Throw e, s).
Definition lift {S A} (r : result A) : M S A := fun s => (r, s).

Definition bind {S A B} (m : M S A) (k : A -> M S B) : M S B :=
  fun s => match m s with
           | (Ok a, s') => k a s'
           | (Throw e, s') => (Throw e, s')
           end.

(** [try { m } catch (e) { h e }]. *)
Definition try_catch {S A} (m : M S A) (h : exn -> M S A) : M S A :=
  fun s => match m s with
           | (Ok a, s') => (Ok a, s')
           | (Throw e, s') => h e s'
           end.

Definition warn (msg : string) (d : option exn) : M Log unit :=
  fun l => (Ok tt, l ++ [Warning msg d]).

End JS.

Export JS(value(..), exn(..), result(..), warning(..)).

Declare Scope js_scope.
Delimit Scope js_scope with js.
Notation "x <- m ;; k" := (JS.bind m (fun x => k))
  (at level 61, m at next level, right associativity) : js_scope.
Notation "m ;;; k" := (JS.bind m (fun _ => k))
  (at level 61, right associativity) : js_scope.

Local Open Scope js_scope.

(** ** [Buffer]: base64 and UTF-8 *)

Module Base64.

Definition alphabet : string :=
  "ABCDEFGHIJKLMNOPQRSTUVWXYZabcdefghijklmnopqrstuvwxyz0123456789+/".

Definition enc (n : N) : ascii :=
  match String.get (N.to_nat n) alphabet with
  | Some c => c
  | None => "="%char
  end.

(** [buf.toString('base64')]: the standard alphabet, padded with [=]. *)
Fixpoint encode_bytes (l : list ascii) : list ascii :=
  match l with
  | [] => []
  | [a] =>
      let x := N_of_ascii a in
      [enc (N.shiftr x 2); enc (N.shiftl (N.land x 3) 4); "="%char; "="%char]
  | [a; b] =>
      let x := N_of_ascii a in
      let y := N_of_ascii b in
      [enc (N.shiftr x 2);
       enc (N.lor (N.shiftl (N.land x 3) 4) (N.shiftr y 4));
       enc (N.shiftl (N.land y 15) 2); "="%char]
  | a :: b :: c :: r =>
      let x := N_of_ascii a in
      let y := N_of_ascii b in
      let z := N_of_ascii c in
      enc (N.shiftr x 2)
      :: enc (N.lor (N.shiftl (N.land x 3) 4) (N.shiftr y 4))
      :: enc (N.lor (N.shiftl (N.land y 15) 2) (N.shiftr z 6))
      :: enc (N.land z 63)
      :: encode_bytes r
  end.

(** The decoding table of Node: both the standard and the URL-safe
    alphabet are legal. *)
Definition unbase64 (c : ascii) : option N :=
  let n := N_of_ascii c in
  if ((65 <=? n) && (n <=? 90))%N then Some (n - 65)%N
  else if ((97 <=? n) && (n <=? 122))%N then Some (n - 71)%N
  else if ((48 <=? n) && (n <=? 57))%N then Some (n + 4)%N
  else if ((n =? 43) || (n =? 45))%N then Some 62%N
  else if ((n =? 47) || (n =? 95))%N then Some 63%N
  else None.

(** The legal characters up to the first [=]; any other character is
    skipped.  [Buffer.from(s, 'base64')] never throws. *)
Fixpoint sextets (l : list ascii) : list N :=
  match l with
  | [] => []
  | c :: r =>
      match unbase64 c with
      | Some v => v :: sextets r
      | None => if Ascii.eqb c "="%char then [] else sextets r
      end
  end.

Definition byte1 (a b : N) : ascii :=
  ascii_of_N (N.lor (N.shiftl (N.land a 63) 2) (N.shiftr (N.land b 48) 4)).
Definition byte2 (b c : N) : ascii :=
  ascii_of_N (N.lor (N.shiftl (N.land b 15) 4) (N.shiftr (N.land c 60) 2)).
Definition byte3 (c d : N) : ascii :=
  ascii_of_N (N.lor (N.shiftl (N.land c 3) 6) (N.land d 63)).

(** A byte is written as soon as its eight bits are there. *)
Fixpoint pack (l : list N) : list ascii :=
  match l with
  | a :: b :: c :: d :: r => byte1 a b :: byte2 b c :: byte3 c d :: pack r
  | [a; b; c] => [byte1 a b; byte2 b c]
  | [a; b] => [byte1 a b]
  | _ => []
  end.

Definition decode_bytes (l : list ascii) : list ascii := pack (sextets l).

End Base64.

Module Utf8.

(** U+FFFD, the replacement character. *)
Definition replacement : list ascii :=
  [ascii_of_nat 239; ascii_of_nat 191; ascii_of_nat 189].

Inductive lead : Type :=
| One                              (* 00..7F *)
| More (needed : nat) (lo hi : N)  (* continuation bytes still needed, range of the next *)
| Bad.

Definition classify (b : N) : lead :=
  if (b <=? 127)%N then One
  else if ((194 <=? b) && (b <=? 223))%N then More 1 128 191
  else if (b =? 224)%N then More 2 160 191
  else if (b =? 237)%N then More 2 128 159
  else if ((225 <=? b) && (b <=? 239))%N then More 2 128 191
  else if (b =? 240)%N then More 3 144 191
  else if (b =? 244)%N then More 3 128 143
  else if ((241 <=? b) && (b <=? 243))%N then More 3 128 191
  else Bad.

(** [buf.toString('utf-8')]: well-formed sequences are kept, every
    maximal ill-formed part becomes U+FFFD.  [st] is the sequence under
    way: bytes still needed, range of the next byte, bytes seen. *)
Fixpoint decode_go (st : option (nat * N * N * list ascii)) (l : list ascii)
  : list ascii :=
  match l with
  | [] => match st with None => [] | Some _ => replacement end
  | b :: r =>
      let start :=
        match classify (N_of_ascii b) with
        | One => b :: decode_go None r
        | More n lo hi => decode_go (Some (n, lo, hi, [b])) r
        | Bad => replacement ++ decode_go None r
        end in
      match st with
      | None => start
      | Some (n, lo, hi, seen) =>
          if ((lo <=? N_of_ascii b) && (N_of_ascii b <=? hi))%N then
            match n with
            | 0 | 1 => rev (b :: seen) ++ decode_go None r
            | S n' => decode_go (Some (n', 128%N, 191%N, b :: seen)) r
            end
          else replacement ++ start
      end
  end.

Definition decode (bytes : list ascii) : string :=
  Str.of_chars (decode_go None bytes).

(** [new Buffer(s)]: the UTF-8 bytes of [s]; a lone surrogate (three
    bytes ED A0..BF xx in this representation) is written as U+FFFD. *)
Fixpoint encode_go (l : list ascii) : list ascii :=
  match l with
  | a :: ((b :: _ :: r) as t) =>
      if ((N_of_ascii a =? 237) && (160 <=? N_of_ascii b))%N
      then replacement ++ encode_go r
      else a :: encode_go t
  | a :: t => a :: encode_go t
  | [] => []
  end.

Definition encode (s : string) : list ascii := encode_go (Str.chars s).

(** The bytes of the code point [cp] (below 0x110000); a surrogate gets
    the three-byte form. *)
Definition of_code_point (cp : N) : list ascii :=
  let cont x := ascii_of_N (N.lor 128 (N.land x 63)) in
  if (cp <? 128)%N then [ascii_of_N cp]
  else if (cp <? 2048)%N then
    [ascii_of_N (N.lor 192 (N.shiftr cp 6)); cont cp]
  else if (cp <? 65536)%N then
    [ascii_of_N (N.lor 224 (N.shiftr cp 12)); cont (N.shiftr cp 6); cont cp]
  else
    [ascii_of_N (N.lor 240 (N.shiftr cp 18)); cont (N.shiftr cp 12);
     cont (N.shiftr cp 6); cont cp].

End Utf8.

Module Buffer.

(** [Buffer.from(s, 'base64').toString('utf-8')]. *)
Definition base64_to_utf8 (s : string) : string :=
  Utf8.decode (Base64.decode_bytes (Str.chars s)).

(** [new Buffer(s).toString('base64')]. *)
Definition utf8_to_base64 (s : string) : string :=
  Str.of_chars (Base64.encode_bytes (Utf8.encode s)).

End Buffer.

(** ** [JSON.parse] *)

Module JSON.

Definition is_ws (c : ascii) : bool :=
  let n := nat_of_ascii c in
  ((n =? 32) || (n =? 9) || (n =? 10) || (n =? 13))%nat.

Fixpoint skip_ws (l : list ascii) : list ascii :=
  match l with
  | c :: r => if is_ws c then skip_ws r else l
  | [] => []
  end.

Fixpoint strip_prefix (p l : list ascii) : option (list ascii) :=
  match p, l with
  | [], _ => Some l
  | a :: p', b :: l' => if Ascii.eqb a b then strip_prefix p' l' else None
  | _ :: _, [] => None
  end.

Fixpoint take_digits (l : list ascii) : list ascii * list ascii :=
  match l with
  | c :: r =>
      if Str.is_digit c then let (d, r') := take_digits r in (c :: d, r')
      else ([], l)
  | [] => ([], [])
  end.

(** *** Numbers: an optional minus, the integer part (0, or digits not
    starting with 0), an optional fraction, an optional exponent *)

Definition parse_int (l : list ascii) : option (list ascii * list ascii) :=
  match l with
  | c :: r =>
      if Ascii.eqb c "0"%char then Some ([c], r)
      else if Str.is_digit c then Some (take_digits l)
      else None
  | [] => None
  end.

Definition parse_frac (l : list ascii) : option (list ascii * list ascii) :=
  match l with
  | c :: r =>
      if Ascii.eqb c "."%char then
        match take_digits r with
        | ([], _) => None
        | (d, r') => Some (d, r')
        end
      else Some ([], l)
  | [] => Some ([], [])
  end.

Definition parse_exp (l : list ascii) : option (Z * list ascii) :=
  match l with
  | c :: r =>
      if Ascii.eqb c "e"%char || Ascii.eqb c "E"%char then
        let (neg, r1) :=
          match r with
          | s :: r' =>
              if Ascii.eqb s "-"%char then (true, r')
              else if Ascii.eqb s "+"%char then (false, r')
              else (false, r)
          | [] => (false, r)
          end in
        match take_digits r1 with
        | ([], _) => None
        | (d, r2) => Some (if neg then (- Str.decimal d)%Z else Str.decimal d, r2)
        end
      else Some (0%Z, l)
  | [] => Some (0%Z, [])
  end.

Definition parse_number (l : list ascii) : option (value * list ascii) :=
  let (neg, l1) :=
    match l with
    | c :: r => if Ascii.eqb c "-"%char then (true, r) else (false, l)
    | [] => (false, l)
    end in
  match parse_int l1 with
  | None => None
  | Some (i, l2) =>
      match parse_frac l2 with
      | None => None
      | Some (f, l3) =>
          match parse_exp l3 with
          | None => None
          | Some (x, l4) =>
              let m := Str.decimal (i ++ f) in
              Some (VNumber (if neg then - m else m)%Z
                            (x - Z.of_nat (length f))%Z, l4)
          end
      end
  end.

(** *** Strings *)

(** What a string literal holds: bytes of the text, and the code units
    written as [\uXXXX]. *)
Inductive item : Type :=
| Raw (b : ascii)
| Unit (u : N).

Definition hex (c : ascii) : option N :=
  let n := N_of_ascii c in
  if ((48 <=? n) && (n <=? 57))%N then Some (n - 48)%N
  else if ((65 <=? n) && (n <=? 70))%N then Some (n - 55)%N
  else if ((97 <=? n) && (n <=? 102))%N then Some (n - 87)%N
  else None.

Definition hex4 (a b c d : ascii) : option N :=
  match hex a, hex b, hex c, hex d with
  | Some x, Some y, Some z, Some w => Some (4096 * x + 256 * y + 16 * z + w)%N
  | _, _, _, _ => None
  end.

Definition escape (c : ascii) : option ascii :=
  let n := nat_of_ascii c in
  if (n =? 34)%nat then Some c                    (* quote *)
  else if (n =? 92)%nat then Some c               (* backslash *)
  else if (n =? 47)%nat then Some c               (* slash *)
  else if (n =? 98)%nat then Some (ascii_of_nat 8)    (* b *)
  else if (n =? 102)%nat then Some (ascii_of_nat 12)  (* f *)
  else if (n =? 110)%nat then Some (ascii_of_nat 10)  (* n *)
  else if (n =? 114)%nat then Some (ascii_of_nat 13)  (* r *)
  else if (n =? 116)%nat then Some (ascii_of_nat 9)   (* t *)
  else None.

(** The text after the opening quote, up to the closing one. *)
Fixpoint parse_chars (l : list ascii) : option (list item * list ascii) :=
  match l with
  | [] => None
  | c :: r =>
      if (nat_of_ascii c =? 34)%nat then Some ([], r)
      else if (nat_of_ascii c <? 32)%nat then None
      else if (nat_of_ascii c =? 92)%nat then
        match r with
        | [] => None
        | e :: r1 =>
            match escape e with
            | Some b =>
                match parse_chars r1 with
                | Some (s, r') => Some (Raw b :: s, r')
                | None => None
                end
            | None =>
                if Ascii.eqb e "u"%char then
                  match r1 with
                  | h1 :: h2 :: h3 :: h4 :: r2 =>
                      match hex4 h1 h2 h3 h4 with
                      | Some u =>
                          match parse_chars r2 with
                          | Some (s, r') => Some (Unit u :: s, r')
                          | None => None
                          end
                      | None => None
                      end
                  | _ => None
                  end
                else None
            end
        end
      else
        match parse_chars r with
        | Some (s, r') => Some (Raw c :: s, r')
        | None => None
        end
  end.

Definition is_high (u : N) : bool := ((55296 <=? u) && (u <=? 56319))%N.
Definition is_low (u : N) : bool := ((56320 <=? u) && (u <=? 57343))%N.

(** The bytes of the string: an escaped surrogate pair is one code
    point. *)
Fixpoint assemble (l : list item) : list ascii :=
  match l with
  | [] => []
  | Raw b :: r => b :: assemble r
  | Unit u :: r =>
      match r with
      | Unit v :: r' =>
          if is_high u && is_low v
          then Utf8.of_code_point (65536 + 1024 * (u - 55296) + (v - 56320))%N
                 ++ assemble r'
          else Utf8.of_code_point u ++ assemble r
      | _ => Utf8.of_code_point u ++ assemble r
      end
  end.

Definition parse_string (l : list ascii) : option (string * list ascii) :=
  match parse_chars l with
  | Some (s, r) => Some (Str.of_chars (assemble s), r)
  | None => None
  end.

(** *** Values *)

Definition literal (p : string) (v : value) (l : list ascii)
  : result (value * list ascii) :=
  match strip_prefix (Str.chars p) l with
  | Some r => Ok (v, r)
  | None => Throw SyntaxError
  end.

(** Recursive descent; [l] starts at the value.  The fuel bounds the
    depth of the calls; [parse] gives enough of it for the length of the
    text (lemma [parse_value_fuel]). *)
Fixpoint parse_value (fuel : nat) (l : list ascii) : result (value * list ascii) :=
  match fuel with
  | O => Throw RangeError
  | S f =>
      match l with
      | [] => Throw SyntaxError
      | c :: r =>
          if Ascii.eqb c "{"%char then
            match skip_ws r with
            | c' :: r' =>
                if Ascii.eqb c' "}"%char then Ok (VObject [], r')
                else parse_members f (skip_ws r) []
            | [] => Throw SyntaxError
            end
          else if Ascii.eqb c "["%char then
            match skip_ws r with
            | c' :: r' =>
                if Ascii.eqb c' "]"%char then Ok (VArray [], r')
                else parse_elements f (skip_ws r) []
            | [] => Throw SyntaxError
            end
          else if (nat_of_ascii c =? 34)%nat then
            match parse_string r with
            | Some (s, r') => Ok (VString s, r')
            | None => Throw SyntaxError
            end
          else if Ascii.eqb c "t"%char then literal "true" (VBool true) l
          else if Ascii.eqb c "f"%char then literal "false" (VBool false) l
          else if Ascii.eqb c "n"%char then literal "null" VNull l
          else
            match parse_number l with
            | Some vr => Ok vr
            | None => Throw SyntaxError
            end
      end
  end

(** [l] starts at an element; [acc] holds the elements read, last first. *)
with parse_elements (fuel : nat) (l : list ascii) (acc : list value)
  : result (value * list ascii) :=
  match fuel with
  | O => Throw RangeError
  | S f =>
      match parse_value f l with
      | Throw e => Throw e
      | Ok (v, r) =>
          match skip_ws r with
          | c :: r' =>
              if Ascii.eqb c ","%char then parse_elements f (skip_ws r') (v :: acc)
              else if Ascii.eqb c "]"%char then Ok (VArray (rev (v :: acc)), r')
              else Throw SyntaxError
          | [] => Throw SyntaxError
          end
      end
  end

(** [l] starts at a member's key; [o] is the object built so far. *)
with parse_members (fuel : nat) (l : list ascii) (o : JS.obj value)
  : result (value * list ascii) :=
  match fuel with
  | O => Throw RangeError
  | S f =>
      match l with
      | q :: r =>
          if (nat_of_ascii q =? 34)%nat then
            match parse_string r with
            | None => Throw SyntaxError
            | Some (k, r1) =>
                match skip_ws r1 with
                | c :: r2 =>
                    if Ascii.eqb c ":"%char then
                      match parse_value f (skip_ws r2) with
                      | Throw e => Throw e
                      | Ok (v, r3) =>
                          match skip_ws r3 with
                          | c' :: r4 =>
                              if Ascii.eqb c' ","%char
                              then parse_members f (skip_ws r4) (JS.set k v o)
                              else if Ascii.eqb c' "}"%char
                              then Ok (VObject (JS.set k v o), r4)
                              else Throw SyntaxError
                          | [] => Throw SyntaxError
                          end
                      end
                    else Throw SyntaxError
                | [] => Throw SyntaxError
                end
            end
          else Throw SyntaxError
      | [] => Throw SyntaxError
      end
  end.

(** [JSON.parse(text)]: one value, white space around it, nothing else. *)
Definition parse (text : string) : result value :=
  let l := Str.chars text in
  match parse_value (2 * length l + 2) (skip_ws l) with
  | Throw e => Throw e
  | Ok (v, r) =>
      match skip_ws r with
      | [] => Ok v
      | _ :: _ => Throw SyntaxError
      end
  end.

End JSON.

(** ** [path.relative] (POSIX) *)

Module Path.

(** The segments between slashes, with empty and [.] segments dropped
    and each [..] removing the segment before it; at the root [..]
    stays at the root.  [acc] is the path so far, last segment first. *)
Fixpoint normalize_go (acc : list string) (segs : list string) : list string :=
  match segs with
  | [] => rev acc
  | s :: r =>
      if String.eqb s "" || String.eqb s "." then normalize_go acc r
      else if String.eqb s ".." then normalize_go (tl acc) r
      else normalize_go (s :: acc) r
  end.

Definition segments (p : string) : list string := Str.split "/"%char p.

Definition isAbsolute (p : string) : bool := Str.startsWith p "/".

(** [path.resolve(p)], as the list of the segments of the absolute
    path: [p] itself when it is absolute, else [p] under the working
    directory [cwd] of the process. *)
Definition resolve (cwd p : string) : list string :=
  if isAbsolute p then normalize_go [] (segments p)
  else normalize_go [] (segments cwd ++ segments p).

Fixpoint drop_common (a b : list string) : list string * list string :=
  match a, b with
  | x :: a', y :: b' => if String.eqb x y then drop_common a' b' else (a, b)
  | _, _ => (a, b)
  end.

(** [path.relative(from, to)] on two strings: one [..] for each
    segment of [from] below the common directory, then the segments of
    [to] below it. *)
Definition relative_strings (cwd from to : string) : string :=
  if String.eqb from to then ""
  else
    let (f, t) := drop_common (resolve cwd from) (resolve cwd to) in
    Str.join "/" (map (fun _ => "..") f ++ t).

(** [path.relative] checks that both arguments are strings. *)
Definition relative (cwd : string) (from to : value) : result string :=
  match from, to with
  | VString f, VString t => Ok (relative_strings cwd f t)
  | _, _ => Throw TypeError
  end.

End Path.

(** ** [url-join]

    The function [normalize] of the package (version 4), which
    [urljoin(a, b)] applies to the array of its two arguments. *)

Module UrlJoin.

Definition is_slash (c : ascii) : bool := Ascii.eqb c "/"%char.

Fixpoint drop_slashes (l : list ascii) : list ascii :=
  match l with
  | c :: r => if is_slash c then drop_slashes r else l
  | [] => []
  end.

(** [s.replace(/^[\/]+/, '')]. *)
Definition strip_leading (s : string) : string :=
  Str.of_chars (drop_slashes (Str.chars s)).

(** [s.replace(/[\/]+$/, '')]. *)
Definition strip_trailing (s : string) : string :=
  Str.of_chars (rev (drop_slashes (rev (Str.chars s)))).

(** [s.replace(/[\/]+$/, '/')]. *)
Definition collapse_trailing (s : string) : string :=
  match rev (Str.chars s) with
  | c :: r => if is_slash c then Str.of_chars (rev ("/"%char :: drop_slashes r)) else s
  | [] => s
  end.

(** The match of [/^([^/:]+):\/*/]: the scheme and what follows the
    slashes after its colon. *)
Fixpoint scheme_go (acc l : list ascii) : option (list ascii * list ascii) :=
  match l with
  | [] => None
  | c :: r =>
      if is_slash c then None
      else if Ascii.eqb c ":"%char then
        match acc with
        | [] => None
        | _ :: _ => Some (rev acc, drop_slashes r)
        end
      else scheme_go (c :: acc) r
  end.

Definition scheme (s : string) : option (string * string) :=
  match scheme_go [] (Str.chars s) with
  | Some (p, r) => Some (Str.of_chars p, Str.of_chars r)
  | None => None
  end.

(** [s.match(/^[^/:]+:\/*$/)]: a scheme and nothing after it. *)
Definition plain_protocol (s : string) : bool :=
  match scheme s with
  | Some (_, r) => String.eqb r ""
  | None => false
  end.

(** Two slashes after the scheme, three when the string starts with
    [file:///]. *)
Definition fix_protocol (s : string) : string :=
  match scheme s with
  | Some (p, r) =>
      if Str.startsWith s "file:///" then (p ++ ":///" ++ r)%string
      else (p ++ "://" ++ r)%string
  | None => s
  end.

(** The loop over the components: an empty one is skipped; all but the
    first lose their leading slashes, all but the last their trailing
    ones, and the last keeps one trailing slash. *)
Fixpoint components (first : bool) (l : list string) : list string :=
  match l with
  | [] => []
  | c :: r =>
      if String.eqb c "" then components false r
      else
        let c1 := if first then c else strip_leading c in
        let c2 := match r with
                  | [] => collapse_trailing c1
                  | _ :: _ => strip_trailing c1
                  end in
        c2 :: components false r
  end.

(** [str.replace(/\/(\?|&|#[^!])/g, '$1')]: a slash goes when a [?], a
    [&], or a [#] not followed by [!] comes next. *)
Fixpoint drop_slash_before_params (l : list ascii) : list ascii :=
  match l with
  | [] => []
  | c :: r =>
      if is_slash c then
        match r with
        | d :: r' =>
            if Ascii.eqb d "?"%char || Ascii.eqb d "&"%char
            then d :: drop_slash_before_params r'
            else if Ascii.eqb d "#"%char then
              match r' with
              | e :: r'' =>
                  if Ascii.eqb e "!"%char then c :: drop_slash_before_params r
                  else d :: e :: drop_slash_before_params r''
              | [] => c :: drop_slash_before_params r
              end
            else c :: drop_slash_before_params r
        | [] => [c]
        end
      else c :: drop_slash_before_params r
  end.

(** [parts = str.split('?'); parts.shift() + (parts.length > 0 ? '?' : '')
    + parts.join('&')]. *)
Definition params (s : string) : string :=
  match Str.split "?"%char s with
  | [] => s
  | p :: ps =>
      (p ++ (match ps with [] => "" | _ :: _ => "?" end) ++ Str.join "&" ps)%string
  end.

(** [normalize(strArray)] of url-join, on an array of strings. *)
Definition normalize (strArray : list string) : string :=
  match strArray with
  | [] => ""
  | s0 :: rest =>
      let arr :=
        match rest with
        | s1 :: rest' =>
            if plain_protocol s0 then (s0 ++ s1)%string :: rest' else strArray
        | [] => strArray
        end in
      let arr :=
        match arr with
        | a :: r => fix_protocol a :: r
        | [] => []
        end in
      let str := Str.join "/" (components true arr) in
      params (Str.of_chars (drop_slash_before_params (Str.chars str)))
  end.

End UrlJoin.

(** ** [URL], [IncomingMessage], [ServerResponse] *)

Module URL.

(** What [index.ts] reads of a WHATWG [URL]: its serialization and the
    name-value pairs of its query, in order. *)
Record t : Type := Make {
  href : string;
  searchParams : list (string * string)
}.

(** [searchParams.has(name)]. *)
Definition has (name : string) (u : t) : bool :=
  existsb (fun kv => String.eqb (fst kv) name) (searchParams u).

(** [searchParams.get(name)]: the value of the first pair of that
    name, [null] when there is none. *)
Definition get (name : string) (u : t) : option string :=
  match find (fun kv => String.eqb (fst kv) name) (searchParams u) with
  | Some kv => Some (snd kv)
  | None => None
  end.

End URL.

Module Http.

(** [req.url] and [req.headers.host] of an incoming request. *)
Record IncomingMessage : Type := Request {
  url : string;
  host : option string
}.

Definition lower (c : ascii) : ascii :=
  let n := nat_of_ascii c in
  if ((65 <=? n) && (n <=? 90))%nat then ascii_of_nat (n + 32) else c.

Fixpoint toLowerCase (s : string) : string :=
  match s with
  | EmptyString => EmptyString
  | String c r => String (lower c) (toLowerCase r)
  end.

(** The header store of a response whose headers are not sent yet:
    one value per lower-cased name. *)
Record ServerResponse : Type := Response {
  headers : JS.obj string
}.

(** The check of a header value: every character is a tab or lies in
    U+0020..U+007E or U+0080..U+00FF.  In the UTF-8 bytes of the value
    the characters U+0080..U+00FF are the two-byte sequences that start
    with C2 or C3. *)
Definition printable (c : ascii) : bool :=
  let n := N_of_ascii c in ((n =? 9) || ((32 <=? n) && (n <=? 126)))%N.

Fixpoint header_value_ok_go (l : list ascii) : bool :=
  match l with
  | [] => true
  | c :: r =>
      let n := N_of_ascii c in
      if printable c then header_value_ok_go r
      else if ((n =? 194) || (n =? 195))%N then
        match r with
        | d :: r' =>
            ((128 <=? N_of_ascii d) && (N_of_ascii d <=? 191))%N
            && header_value_ok_go r'
        | [] => false
        end
      else false
  end.

Definition header_value_ok (value : string) : bool :=
  header_value_ok_go (Str.chars value).

(** [res.setHeader(name, value)] for one of the three names that
    [index.ts] writes: a value that fails the check throws a
    [TypeError] and leaves the response as it was; otherwise the last
    write to a name wins. *)
Definition setHeader (name value : string) : JS.M ServerResponse unit :=
  fun res =>
    if header_value_ok value
    then (Ok tt, Response (JS.set (toLowerCase name) value (headers res)))
    else (Throw TypeError, res).

(** [res.getHeader(name)]. *)
Definition getHeader (name : string) (res : ServerResponse) : option string :=
  JS.lookup (toLowerCase name) (headers res).

End Http.

Export Http(IncomingMessage, ServerResponse).

(** ** The types of [types.ts] *)

(** Modelled from the spec: the interface [RequestData] of [types.ts],
    which is not among the sources.  Its three accessors, named as
    [index.ts] builds them, return values fixed when the request was
    processed: the request URL, the base path and the path props. *)
Record RequestData : Type := {
  getCurrentReqUrl : string;
  getCurrentBasePath : value;
  getCurrentPathProps : value
}.

(** Modelled from the spec: the interface [AppAssets] of [types.ts],
    which is not among the sources: an optional script, an optional
    style sheet, and an optional mapping from the names of the shared
    dependencies to their URLs. *)
Record AppAssets : Type := {
  spaBundle : option string;
  cssBundle : option string;
  dependencies : option (JS.obj string)
}.

(** Modelled from the spec: the interface [ResponseData] of [types.ts],
    which is not among the sources: an optional title, optional meta
    tags as markup, optional assets. *)
Record ResponseData : Type := {
  pageTitle : option string;
  pageMetaTags : option string;
  appAssets : option AppAssets
}.

(** An optional string in a condition: [undefined] and [''] are falsy. *)
Definition nonempty (s : option string) : option string :=
  match s with
  | Some x => if String.eqb x "" then None else Some x
  | None => None
  end.

(** ** The class [IlcSdk] *)

(** The fields of an instance.  The logger is the sink of the monad. *)
Record IlcSdk : Type := {
  defaultPublicPath : string
}.

(** [constructor({logger = console, publicPath = '/'})]. *)
Definition new_IlcSdk (publicPath : option string) : IlcSdk :=
  {| defaultPublicPath := match publicPath with Some p => p | None => "/" end |}.

(** The local object [res] of [getRequestUrls]. *)
Record RequestUrls : Type := {
  basePageUrl : value;
  requestUrl : string
}.

Section IlcSdk.

(** [new URL(input, base)] of the platform: a parsed URL, or the
    [TypeError] of an input that is not a URL. *)
Variable newURL : string -> string -> result URL.t.

(** [process.cwd()], which [path.relative] uses for relative paths. *)
Variable cwd : string.

(** [urljoin(a, b)] when [a] is not a string. *)
Variable urljoin_other : value -> string -> result string.

Variable this : IlcSdk.

(** [parseUrl]. *)
Definition parseUrl (req : IncomingMessage) : result URL.t :=
  newURL (Http.url req)
         ("http://" ++ match Http.host req with
                       | Some h => h
                       | None => "undefined"
                       end)%string.

Definition missing_routerProps (u : URL.t) : string :=
  ("Missing " ++ Str.quoted "routerProps" ++ " for " ++ Str.quoted (URL.href u)
     ++ " request. Fallback to / & /")%string.

(** [getRequestUrls]. *)
Definition getRequestUrls (u : URL.t) : JS.M JS.Log RequestUrls :=
  if URL.has "routerProps" u then
    match URL.get "routerProps" u with
    | None => JS.throw TypeError     (* not reached: [has] holds *)
    | Some raw =>
        routerProps <- JS.lift (JSON.parse (Buffer.base64_to_utf8 raw)) ;;
        basePath <- JS.lift (JS.getProp routerProps "basePath") ;;
        reqUrl <- JS.lift (JS.getProp routerProps "reqUrl") ;;
        rel <- JS.lift (Path.relative cwd basePath reqUrl) ;;
        JS.ret {| basePageUrl := basePath; requestUrl := "/" ++ rel |}
    end
  else
    JS.warn (missing_routerProps u) None ;;;
    JS.ret {| basePageUrl := VString "/"; requestUrl := "/" |}.

Definition parsing_failed : string :=
  "Error while parsing passed props. Falling back to empty object...".

(** [getPassedProps]. *)
Definition getPassedProps (u : URL.t) : JS.M JS.Log value :=
  if negb (URL.has "appProps" u) then JS.ret (VObject [])
  else
    JS.try_catch
      (match URL.get "appProps" u with
       | None => JS.throw TypeError  (* not reached: [has] holds *)
       | Some raw => JS.lift (JSON.parse (Buffer.base64_to_utf8 raw))
       end)
      (fun e => JS.warn parsing_failed (Some e) ;;; JS.ret (VObject [])).

(** [processRequest]. *)
Definition processRequest (req : IncomingMessage) : JS.M JS.Log RequestData :=
  u <- JS.lift (parseUrl req) ;;
  requestedUrls <- getRequestUrls u ;;
  passedProps <- getPassedProps u ;;
  JS.ret {| getCurrentReqUrl := requestUrl requestedUrls;
            getCurrentBasePath := basePageUrl requestedUrls;
            getCurrentPathProps := passedProps |}.

(** [urljoin(a, b)] where [b] is a string: on two strings, the
    [normalize] of the package. *)
Definition urljoin (a : value) (b : string) : result string :=
  match a with
  | VString p => Ok (UrlJoin.normalize [p; b])
  | other => urljoin_other other b
  end.

(** [buildLink]. *)
Definition buildLink (path : string) (publicPath : value) : result string :=
  if Str.includes path "http://" || Str.includes path "https://" then Ok path
  else
    let pp := if JS.truthy publicPath then publicPath
              else VString (defaultPublicPath this) in
    urljoin pp path.

Definition stylesheet_link (u : string) : string :=
  ("<" ++ u ++ ">; rel=" ++ Str.quoted "stylesheet")%string.

Definition script_link (u : string) : string :=
  ("<" ++ u ++ ">; rel=" ++ Str.quoted "fragment-script"
       ++ "; as=" ++ Str.quoted "script"
       ++ "; crossorigin=" ++ Str.quoted "anonymous")%string.

Definition dependency_link (u k : string) : string :=
  ("<" ++ u ++ ">; rel=" ++ Str.quoted "fragment-dependency"
       ++ "; name=" ++ Str.quoted k)%string.

(** [links.push(entry)]. *)
Definition push (entry : string) : JS.M (list string) unit :=
  fun links => (Ok tt, links ++ [entry]).

(** The body of [for (let k in appAssets.dependencies)], on the array
    [links].  A dependency named [hasOwnProperty] hides the method, and
    the call of its string throws. *)
Fixpoint push_dependencies (deps : JS.obj string) (publicPath : value)
         (keys : list string) : JS.M (list string) unit :=
  match keys with
  | [] => JS.ret tt
  | k :: rest =>
      own <- (if JS.hasOwn "hasOwnProperty" deps then JS.throw TypeError
              else JS.ret (JS.hasOwn k deps)) ;;
      (if negb own then JS.ret tt
       else
         match JS.lookup k deps with
         | None => JS.throw TypeError   (* not reached: [k] is an own key *)
         | Some d =>
             l <- JS.lift (buildLink d publicPath) ;;
             push (dependency_link l k)
         end) ;;;
      push_dependencies deps publicPath rest
  end.

(** [getLinkHeader]; the state is the array [links]. *)
Definition getLinkHeader_links (a : AppAssets) (publicPath : value)
  : JS.M (list string) unit :=
  match nonempty (cssBundle a) with
  | Some css =>
      l <- JS.lift (buildLink css publicPath) ;;
      push (stylesheet_link l)
  | None => JS.ret tt
  end ;;;
  match nonempty (spaBundle a) with
  | Some spa =>
      l <- JS.lift (buildLink spa publicPath) ;;
      push (script_link l)
  | None => JS.ret tt
  end ;;;
  match dependencies a with
  | Some deps => push_dependencies deps publicPath (JS.ownKeys deps)
  | None => JS.ret tt
  end.

Definition getLinkHeader (a : AppAssets) (publicPath : value) : result string :=
  match getLinkHeader_links a publicPath [] with
  | (Ok _, links) => Ok (Str.join "," links)
  | (Throw e, _) => Throw e
  end.

(** [processResponse]; the state is the response. *)
Definition processResponse (reqData : RequestData) (data : ResponseData)
  : JS.M ServerResponse unit :=
  match nonempty (pageTitle data) with
  | Some title =>
      Http.setHeader "x-head-title"
        (Buffer.utf8_to_base64 ("<title>" ++ title ++ "</title>"))
  | None => JS.ret tt
  end ;;;
  match nonempty (pageMetaTags data) with
  | Some meta => Http.setHeader "x-head-meta" (Buffer.utf8_to_base64 meta)
  | None => JS.ret tt
  end ;;;
  match appAssets data with
  | Some a =>
      publicPath <- JS.lift (JS.getProp (getCurrentPathProps reqData) "publicPath") ;;
      link <- JS.lift (getLinkHeader a publicPath) ;;
      Http.setHeader "Link" link
  | None => JS.ret tt
  end.

End IlcSdk.

(** ** Instances of the platform for the examples *)

Module Sample.

(** Percent-decoding of a query component, with [+] for a space. *)
Fixpoint unescape (l : list ascii) : list ascii :=
  match l with
  | [] => []
  | c :: r =>
      if Ascii.eqb c "+"%char then " "%char :: unescape r
      else if Ascii.eqb c "%"%char then
        match r with
        | h1 :: h2 :: r' =>
            match JSON.hex h1, JSON.hex h2 with
            | Some x, Some y => ascii_of_N (16 * x + y) :: unescape r'
            | _, _ => c :: unescape r
            end
        | _ => c :: unescape r
        end
      else c :: unescape r
  end.

Definition component (s : string) : string :=
  Utf8.decode (unescape (Str.chars s)).

(** [name=value]: the name ends at the first [=]. *)
Definition pair (s : string) : string * string :=
  match Str.split "="%char s with
  | [] => (component s, "")
  | n :: vs => (component n, component (Str.join "=" vs))
  end.

Definition query (q : string) : list (string * string) :=
  map pair (filter (fun s => negb (String.eqb s "")) (Str.split "&"%char q)).

(** [new URL(input, base)] on a request target [/path?query] that is
    already in its normal form: the serialization is the base followed
    by the target.  Any other input is refused. *)
Definition newURL (input base : string) : result URL.t :=
  if Str.startsWith input "/" && negb (Str.includes input "#") then
    Ok (URL.Make (base ++ input)%string
          (match Str.split "?"%char input with
           | _ :: q :: qs => query (Str.join "?" (q :: qs))
           | _ => []
           end))
  else Throw TypeError.

(** [url-join] that refuses every first argument that is not a
    string, as it does for a number or a boolean. *)
Definition urljoin_other (a : value) (b : string) : result string :=
  Throw TypeError.

Definition cwd : string := "/srv/app".

(** [routerProps] of the scenario: base path [/foo], requested [/foo/bar]. *)
Definition routerProps_foo_bar : string :=
  ("{" ++ Str.quoted "basePath" ++ ":" ++ Str.quoted "/foo" ++ ","
       ++ Str.quoted "reqUrl" ++ ":" ++ Str.quoted "/foo/bar" ++ "}")%string.

End Sample.

(** ** Scenarios *)

(** [routerProps] with [basePath] and [reqUrl] both [/shop]. *)
Definition routerProps_shop : string :=
  Buffer.utf8_to_base64
    ("{" ++ Str.quoted "basePath" ++ ":" ++ Str.quoted "/shop" ++ ","
         ++ Str.quoted "reqUrl" ++ ":" ++ Str.quoted "/shop" ++ "}").

(** The scenario of the specification: a script, one shared dependency. *)
Definition main_and_shared : AppAssets :=
  {| spaBundle := Some "main.js";
     cssBundle := None;
     dependencies := Some (JS.literal [("shared", "shared.js")]) |}.

(** Two dependencies, [b] created before [1]. *)
Definition b_then_1 : AppAssets :=
  {| spaBundle := None;
     cssBundle := None;
     dependencies := Some (JS.literal [("b", "b.js"); ("1", "one.js")]) |}.

(** ** Reading the code: declared types, enumeration order, plain paths *)

(** A [publicPath] of the declared type, [string | undefined]. *)
Definition optional (p : option string) : value :=
  match p with
  | Some s => VString s
  | None => VUndefined
  end.

(** The own properties of an object in the order of [for-in]. *)
Definition own_entries {A} (o : JS.obj A) : list (string * A) :=
  flat_map (fun k => match JS.lookup k o with
                     | Some v => [(k, v)]
                     | None => []
                     end) (JS.ownKeys o).

(** The characters with a meaning of their own for [url-join]. *)
Definition special (c : ascii) : bool :=
  Ascii.eqb c ":"%char || Ascii.eqb c "?"%char
  || Ascii.eqb c "&"%char || Ascii.eqb c "#"%char.

Definition plain_chars (l : list ascii) : bool :=
  forallb (fun c => negb (special c)) l.

(** A path without scheme, query or fragment. *)
Definition plain (s : string) : bool := plain_chars (Str.chars s).

Section LinkHeader.

Variable this : IlcSdk.

(** The public path in force: the argument when it is there and not
    empty, else the default of the instance. *)
Definition effective_public_path (publicPath : option string) : string :=
  match nonempty publicPath with
  | Some p => p
  | None => defaultPublicPath this
  end.

(** What [buildLink] returns for a [publicPath] of the declared type. *)
Definition link_url (path : string) (publicPath : option string) : string :=
  if Str.includes path "http://" || Str.includes path "https://" then path
  else UrlJoin.normalize [effective_public_path publicPath; path].

(** *** The [Link] header *)

Definition dependency_links (publicPath : option string)
           (entries : list (string * string)) : list string :=
  map (fun kd => dependency_link (link_url (snd kd) publicPath) (fst kd)) entries.

(** The entries that [getLinkHeader] pushes: the style sheet and the
    script when their paths are not empty, then the dependencies in
    the order of [for-in]. *)
Definition link_entries (a : AppAssets) (publicPath : option string) : list string :=
  match nonempty (cssBundle a) with
  | Some css => [stylesheet_link (link_url css publicPath)]
  | None => []
  end ++
  match nonempty (spaBundle a) with
  | Some spa => [script_link (link_url spa publicPath)]
  | None => []
  end ++
  match dependencies a with
  | Some deps => dependency_links publicPath (own_entries deps)
  | None => []
  end.

(** The header in the words of the specification: the style sheet if
    present, the script if present, then one entry per dependency in
    the insertion order of the mapping. *)
Definition link_header_in_insertion_order
           (a : AppAssets) (publicPath : option string) : string :=
  Str.join ","
    (match cssBundle a with
     | Some css => [stylesheet_link (link_url css publicPath)]
     | None => []
     end ++
     match spaBundle a with
     | Some spa => [script_link (link_url spa publicPath)]
     | None => []
     end ++
     match dependencies a with
     | Some deps => dependency_links publicPath deps
     | None => []
     end).

(** No dependency is named [hasOwnProperty]. *)
Definition method_visible (a : AppAssets) : Prop :=
  match dependencies a with
  | Some deps => JS.hasOwn "hasOwnProperty" deps = false
  | None => True
  end.

(** Link resolution in the words of the specification: a path that is
    an absolute [http://] or [https://] URL is used as it is, any other
    is joined onto the public path in force. *)
Definition link_url_of_absolute (path : string)
           (publicPath : option string) : string :=
  if Str.startsWith path "http://" || Str.startsWith path "https://" then path
  else UrlJoin.normalize [effective_public_path publicPath; path].

End LinkHeader.

(** ** Reading the code: what a call leaves behind *)

(** The warning that [getPassedProps] logs for the URL [u], if any. *)
Definition props_warnings (u : URL.t) : JS.Log :=
  match URL.get "appProps" u with
  | Some raw =>
      match JSON.parse (Buffer.base64_to_utf8 raw) with
      | Throw e => [Warning parsing_failed (Some e)]
      | Ok _ => []
      end
  | None => []
  end.

(** The path props that [getPassedProps] returns for the URL [u]. *)
Definition props_of (u : URL.t) : value :=
  match URL.get "appProps" u with
  | Some raw =>
      match JSON.parse (Buffer.base64_to_utf8 raw) with
      | Ok v => v
      | Throw _ => VObject []
      end
  | None => VObject []
  end.

(** ** Reading the code: bytes and their sextets *)

(** Every byte, for checks by enumeration. *)
Definition all_bytes : list ascii := map ascii_of_nat (seq 0 256).

(** The sextets below 64. *)
Definition all_sextets : list N := map N.of_nat (seq 0 64).

(** The four sextets that [Base64.encode_bytes] writes for three bytes. *)
Definition sextet1 (a : ascii) : N := N.shiftr (N_of_ascii a) 2.

Definition sextet2 (a b : ascii) : N :=
  N.lor (N.shiftl (N.land (N_of_ascii a) 3) 4) (N.shiftr (N_of_ascii b) 4).

Definition sextet3 (b c : ascii) : N :=
  N.lor (N.shiftl (N.land (N_of_ascii b) 15) 2) (N.shiftr (N_of_ascii c) 6).

Definition sextet4 (c : ascii) : N := N.land (N_of_ascii c) 63.

(** A text of characters below 128. *)
Definition is_ascii (s : string) : bool :=
  forallb (fun c => (N_of_ascii c <? 128)%N) (Str.chars s).

(** ** Reading the code: the headers after the first two steps *)

Definition set_if {A} (k : string) (v : option A) (o : JS.obj A) : JS.obj A :=
  match v with
  | Some x => JS.set k x o
  | None => o
  end.

(** The value that [processResponse] writes to [x-head-title], if any. *)
Definition title_header (data : ResponseData) : option string :=
  match nonempty (pageTitle data) with
  | Some t => Some (Buffer.utf8_to_base64 ("<title>" ++ t ++ "</title>"))
  | None => None
  end.

(** The value that [processResponse] writes to [x-head-meta], if any. *)
Definition meta_header (data : ResponseData) : option string :=
  match nonempty (pageMetaTags data) with
  | Some m => Some (Buffer.utf8_to_base64 m)
  | None => None
  end.

(** The header store once the title and the meta tags are written. *)
Definition head_headers (data : ResponseData) (res : ServerResponse) : JS.obj string :=
  set_if "x-head-meta" (meta_header data)
    (set_if "x-head-title" (title_header data) (Http.headers res)).

(** ** Reading the code: array-index keys *)

Definition is_index_key (k : string) : bool :=
  match JS.arrayIndex k with Some _ => true | None => false end.

(** ** Reading the code: paths without query or fragment *)

(** A character that is not [?], [&] or [#]. *)
Definition not_query (c : ascii) : bool :=
  negb (Ascii.eqb c "?"%char || Ascii.eqb c "&"%char || Ascii.eqb c "#"%char).

(** A URL without query or fragment. *)
Definition queryless (s : string) : bool := forallb not_query (Str.chars s).

(** ** More scenarios *)

(** [routerProps] whose [reqUrl] is not under its [basePath]. *)
Definition routerProps_outside : string :=
  Buffer.utf8_to_base64
    ("{" ++ Str.quoted "basePath" ++ ":" ++ Str.quoted "/foo" ++ ","
         ++ Str.quoted "reqUrl" ++ ":" ++ Str.quoted "/other/x" ++ "}").

(** Path props that give a public path on a CDN, as JSON text. *)
Definition appProps_cdn : string :=
  ("{" ++ Str.quoted "publicPath" ++ ":" ++ Str.quoted "https://cdn.example/app/" ++ "}")%string.

(** Assets with a style sheet, a script and two dependencies. *)
Definition full_assets : AppAssets :=
  {| spaBundle := Some "main.js";
     cssBundle := Some "/css/main.css";
     dependencies := Some (JS.literal [("react", "https://unpkg.example/react.js");
                                       ("7", "vendor/seven.js")]) |}.

(** Assets whose script has a name outside Latin-1, and a page with
    them. *)
Definition unicode_assets : AppAssets :=
  {| spaBundle := Some "中.js"; cssBundle := None; dependencies := None |}.

Definition unicode_page : ResponseData :=
  {| pageTitle := Some "Hi"; pageMetaTags := None; appAssets := Some unicode_assets |}.

(** Assets with a dependency named [hasOwnProperty]. *)
Definition shadowing_assets : AppAssets :=
  {| spaBundle := Some "main.js";
     cssBundle := None;
     dependencies := Some (JS.literal [("lodash", "lodash.js");
                                       ("hasOwnProperty", "shim.js")]) |}.

(** A request with [routerProps_outside] and [appProps_cdn], its parsed
    URL on the sample platform and what [processRequest] returns for it. *)
Definition request_cdn : IncomingMessage :=
  Http.Request ("/?routerProps=" ++ routerProps_outside
                  ++ "&appProps=" ++ Buffer.utf8_to_base64 appProps_cdn)
               (Some "localhost").

Definition url_cdn : URL.t :=
  URL.Make ("http://localhost/?routerProps=" ++ routerProps_outside
              ++ "&appProps=" ++ Buffer.utf8_to_base64 appProps_cdn)
           [("routerProps", routerProps_outside);
            ("appProps", Buffer.utf8_to_base64 appProps_cdn)].

Definition data_cdn : RequestData :=
  {| getCurrentReqUrl := "/../other/x";
     getCurrentBasePath := VString "/foo";
     getCurrentPathProps :=
       VObject [("publicPath", VString "https://cdn.example/app/")] |}.

(** Request data whose path props are [null]. *)
Definition data_null : RequestData :=
  {| getCurrentReqUrl := "/";
     getCurrentBasePath := VString "/";
     getCurrentPathProps := VNull |}.

(** Response data with a title, meta tags and [full_assets]. *)
Definition page : ResponseData :=
  {| pageTitle := Some "Hi";
     pageMetaTags := Some "<meta name=x>";
     appAssets := Some full_assets |}.

(** * Properties *)

(** ** The platform model on known values *)

Example base64_of_title :
  Buffer.utf8_to_base64 "<title>Hi</title>" = "PHRpdGxlPkhpPC90aXRsZT4=".
Proof. reflexivity. Qed.

Example base64_skips_and_stops :
  Buffer.base64_to_utf8 "bm90 LWpz*b24=ignored" = "not-json".
Proof. reflexivity. Qed.

Example parse_of_text_that_is_not_JSON :
  JSON.parse "not-json" = Throw SyntaxError.
Proof. reflexivity. Qed.

Example parse_keeps_last_of_equal_keys :
  JSON.parse ("{" ++ Str.quoted "a" ++ ":1, " ++ Str.quoted "b" ++ ":[true, null], "
                  ++ Str.quoted "a" ++ ":-2.5e3}")
  = Ok (VObject [("a", VNumber (-25) 2); ("b", VArray [VBool true; VNull])]).
Proof. reflexivity. Qed.

Example relative_is_not_prefix_stripping (cwd : string) :
  Path.relative_strings cwd "/foo" "/foobar" = "../foobar" /\
  Path.relative_strings cwd "/foo/" "/foo/bar/../baz" = "baz" /\
  Path.relative_strings cwd "/foo/bar" "/foo" = "..".
Proof. repeat split. Qed.

Example urljoin_on_known_values :
  UrlJoin.normalize ["/"; "main.js"] = "/main.js" /\
  UrlJoin.normalize ["http://cdn.example/"; "/a//b/?x=1?y=2"]
  = "http://cdn.example/a//b?x=1&y=2" /\
  UrlJoin.normalize ["http:"; "//cdn.example/"] = "http://cdn.example/".
Proof. repeat split. Qed.

Example for_in_order :
  JS.ownKeys (JS.literal [("b", 1); ("10", 2); ("9", 3); ("01", 4); ("a", 5)]%nat)
  = ["9"; "10"; "b"; "01"; "a"].
Proof. reflexivity. Qed.

(** ** Objects, URLs and the monad *)

Lemma lookup_set_same {A} (k : string) (v : A) (o : JS.obj A) :
  JS.lookup k (JS.set k v o) = Some v.
Proof.
  induction o as [|[k' v'] o IH]; simpl.
  - now rewrite String.eqb_refl.
  - destruct (String.eqb k' k) eqn:E; simpl; rewrite E; auto.
Qed.

Lemma lookup_set_other {A} (k k' : string) (v : A) (o : JS.obj A) :
  k <> k' -> JS.lookup k' (JS.set k v o) = JS.lookup k' o.
Proof.
  intros Hne. induction o as [|[k0 v0] o IH]; simpl.
  - destruct (String.eqb k k') eqn:E; auto.
    apply String.eqb_eq in E. contradiction.
  - destruct (String.eqb k0 k) eqn:E; simpl.
    + apply String.eqb_eq in E. subst k0.
      destruct (String.eqb k k') eqn:E'; auto.
      apply String.eqb_eq in E'. contradiction.
    + now rewrite IH.
Qed.

Lemma startsWith_cons (c : ascii) (s : string) :
  Str.startsWith (String c s) (String c EmptyString) = true.
Proof.
  unfold Str.startsWith. simpl.
  destruct (ascii_dec c c) as [_|N]; [now destruct s | contradiction].
Qed.

Lemma get_has (name v : string) (u : URL.t) :
  URL.get name u = Some v -> URL.has name u = true.
Proof.
  unfold URL.get, URL.has.
  destruct (find _ (URL.searchParams u)) as [kv|] eqn:F; [|discriminate].
  intros _. apply find_some in F. destruct F as [Hin Heq].
  apply existsb_exists. now exists kv.
Qed.

Lemma has_get (name : string) (u : URL.t) :
  URL.has name u = true -> exists v, URL.get name u = Some v.
Proof.
  unfold URL.get, URL.has. intros H.
  apply existsb_exists in H. destruct H as [kv [Hin Heq]].
  destruct (find _ (URL.searchParams u)) as [kv'|] eqn:F.
  - now exists (snd kv').
  - apply (find_none _ _ F) in Hin. simpl in Hin. congruence.
Qed.

(** ** [JSON.parse] does not run out of fuel *)

Ltac break_match_hyp H :=
  repeat match type of H with
         | context [if ?b then _ else _] => destruct b eqn:?
         | context [match ?x with _ => _ end] => destruct x eqn:?
         end.

Lemma parse_chars_shorter_aux (n : nat) :
  forall l s r, (length l <= n)%nat ->
    JSON.parse_chars l = Some (s, r) -> (length r < length l)%nat.
Proof.
  induction n as [|n IH]; intros l s r Hn H.
  - destruct l; [discriminate | simpl in Hn; lia].
  - destruct l as [|c l]; [discriminate|].
    cbn [JSON.parse_chars] in H. simpl in Hn.
    break_match_hyp H; try discriminate; subst;
      injection H as <- <-; simpl;
      try match goal with
          | E : JSON.parse_chars ?x = Some (_, ?r') |- _ =>
              apply IH in E; simpl in *; lia
          end.
    lia.
Qed.

Lemma parse_string_shorter (l : list ascii) (s : string) (r : list ascii) :
  JSON.parse_string l = Some (s, r) -> (length r < length l)%nat.
Proof.
  unfold JSON.parse_string.
  destruct (JSON.parse_chars l) as [[s' r']|] eqn:E; [|discriminate].
  intros H. injection H as _ <-.
  exact (parse_chars_shorter_aux (length l) l s' r' (le_n _) E).
Qed.

Lemma skip_ws_length (l : list ascii) : (length (JSON.skip_ws l) <= length l)%nat.
Proof.
  induction l as [|c l IH]; simpl; [lia|].
  destruct (JSON.is_ws c); simpl; lia.
Qed.

Lemma skip_ws_eq_length (l r : list ascii) :
  JSON.skip_ws l = r -> (length r <= length l)%nat.
Proof. intros <-. apply skip_ws_length. Qed.

Lemma take_digits_length (l d r : list ascii) :
  JSON.take_digits l = (d, r) -> length l = (length d + length r)%nat.
Proof.
  revert d r. induction l as [|c l IH]; simpl; intros d r H.
  - now injection H as <- <-.
  - destruct (Str.is_digit c).
    + destruct (JSON.take_digits l) as [d' r'] eqn:E.
      injection H as <- <-. simpl. now rewrite (IH d' r' eq_refl).
    + now injection H as <- <-.
Qed.

Lemma parse_int_shorter (l i r : list ascii) :
  JSON.parse_int l = Some (i, r) -> (length r < length l)%nat.
Proof.
  unfold JSON.parse_int. destruct l as [|c l]; [discriminate|].
  destruct (Ascii.eqb c "0"%char).
  - intros [= <- <-]. simpl. lia.
  - destruct (Str.is_digit c) eqn:D; [|discriminate].
    cbn [JSON.take_digits]. rewrite D.
    destruct (JSON.take_digits l) as [d' r'] eqn:E.
    intros [= <- <-]. apply take_digits_length in E. simpl. lia.
Qed.

Lemma parse_frac_length (l f r : list ascii) :
  JSON.parse_frac l = Some (f, r) -> (length r <= length l)%nat.
Proof.
  unfold JSON.parse_frac. destruct l as [|c l].
  - intros [= <- <-]. simpl. lia.
  - destruct (Ascii.eqb c "."%char).
    + destruct (JSON.take_digits l) as [d r'] eqn:E.
      apply take_digits_length in E.
      destruct d; [discriminate|]. intros [= <- <-]. simpl in *. lia.
    + intros [= <- <-]. simpl. lia.
Qed.

Lemma parse_exp_length (l : list ascii) (x : Z) (r : list ascii) :
  JSON.parse_exp l = Some (x, r) -> (length r <= length l)%nat.
Proof.
  unfold JSON.parse_exp. destruct l as [|c l].
  - intros [= <- <-]. simpl. lia.
  - destruct (Ascii.eqb c "e"%char || Ascii.eqb c "E"%char).
    + destruct l as [|s l'].
      * simpl. discriminate.
      * destruct (Ascii.eqb s "-"%char); [|destruct (Ascii.eqb s "+"%char)];
          match goal with
          | |- context [JSON.take_digits ?t] =>
              destruct (JSON.take_digits t) as [d r'] eqn:E;
              apply take_digits_length in E
          end;
          (destruct d; [discriminate|]); intros [= <- <-]; simpl in *; lia.
    + intros [= <- <-]. simpl. lia.
Qed.

Lemma parse_number_shorter (l : list ascii) (v : value) (r : list ascii) :
  JSON.parse_number l = Some (v, r) -> (length r < length l)%nat.
Proof.
  unfold JSON.parse_number.
  set (sl := match l with
             | c :: r0 => if Ascii.eqb c "-"%char then (true, r0) else (false, l)
             | [] => (false, l)
             end).
  assert (Hsl : (length (snd sl) <= length l)%nat).
  { unfold sl. destruct l as [|c l']; simpl; [lia|].
    destruct (Ascii.eqb c "-"%char); simpl; lia. }
  destruct sl as [neg l1]. simpl in Hsl.
  destruct (JSON.parse_int l1) as [[i l2]|] eqn:Ei; [|discriminate].
  destruct (JSON.parse_frac l2) as [[f l3]|] eqn:Ef; [|discriminate].
  destruct (JSON.parse_exp l3) as [[x l4]|] eqn:Ee; [|discriminate].
  intros [= _ <-].
  apply parse_int_shorter in Ei. apply parse_frac_length in Ef.
  apply parse_exp_length in Ee. lia.
Qed.

Lemma strip_prefix_length (p l r : list ascii) :
  JSON.strip_prefix p l = Some r -> length l = (length p + length r)%nat.
Proof.
  revert l. induction p as [|a p IH]; simpl; intros l H.
  - now injection H as <-.
  - destruct l as [|b l]; [discriminate|].
    destruct (Ascii.eqb a b); [|discriminate].
    simpl. now rewrite (IH l H).
Qed.

Lemma literal_length (p : string) (v v' : value) (l r : list ascii) :
  JSON.literal p v l = Ok (v', r) ->
  length l = (length (Str.chars p) + length r)%nat.
Proof.
  unfold JSON.literal.
  destruct (JSON.strip_prefix (Str.chars p) l) eqn:E; [|discriminate].
  intros H. injection H as _ <-. now apply strip_prefix_length.
Qed.

Lemma literal_throws (p : string) (v : value) (l : list ascii) (e : exn) :
  JSON.literal p v l = Throw e -> e = SyntaxError.
Proof.
  unfold JSON.literal. destruct (JSON.strip_prefix _ l); [discriminate|].
  now intros [= <-].
Qed.

Ltac lengths :=
  repeat match goal with
         | E : JSON.skip_ws _ = _ |- _ => apply skip_ws_eq_length in E
         | E : JSON.parse_string _ = Some _ |- _ => apply parse_string_shorter in E
         | E : JSON.parse_number _ = Some _ |- _ => apply parse_number_shorter in E
         | E : JSON.literal _ _ _ = Ok _ |- _ => apply literal_length in E
         end.

(** What is left after a value is shorter than what was there. *)
Lemma parse_value_shorter (fuel : nat) :
  (forall l v r, JSON.parse_value fuel l = Ok (v, r) -> (length r < length l)%nat) /\
  (forall l acc v r,
      JSON.parse_elements fuel l acc = Ok (v, r) -> (length r < length l)%nat) /\
  (forall l o v r,
      JSON.parse_members fuel l o = Ok (v, r) -> (length r < length l)%nat).
Proof.
  induction fuel as [|f [IHv [IHe IHm]]];
    [repeat split; intros; discriminate|].
  repeat split.
  - intros l v r H. destruct l as [|c l]; [discriminate|].
    cbn [JSON.parse_value] in H.
    break_match_hyp H; try discriminate; subst;
      try (inversion H; subst; clear H);
      try match goal with
          | E : JSON.parse_members _ _ _ = Ok _ |- _ => apply IHm in E
          | E : JSON.parse_elements _ _ _ = Ok _ |- _ => apply IHe in E
          end;
      lengths; simpl in *; lia.
  - intros l acc v r H. cbn [JSON.parse_elements] in H.
    break_match_hyp H; try discriminate; subst;
      try (inversion H; subst; clear H);
      repeat match goal with
             | E : JSON.parse_value _ _ = Ok _ |- _ => apply IHv in E
             | E : JSON.parse_elements _ _ _ = Ok _ |- _ => apply IHe in E
             end;
      lengths;
      try (pose proof (skip_ws_length l1));
      simpl in *; lia.
  - intros l o v r H. cbn [JSON.parse_members] in H.
    break_match_hyp H; try discriminate; subst;
      try (inversion H; subst; clear H);
      repeat match goal with
             | E : JSON.parse_value _ _ = Ok _ |- _ => apply IHv in E
             | E : JSON.parse_members _ _ _ = Ok _ |- _ => apply IHm in E
             end;
      lengths;
      repeat match goal with
             | |- context [JSON.skip_ws ?x] => 
                 pose proof (skip_ws_length x); generalize dependent (JSON.skip_ws x); intros
             | H : context [JSON.skip_ws ?x] |- _ =>
                 pose proof (skip_ws_length x); generalize dependent (JSON.skip_ws x); intros
             end;
      simpl in *; lia.
Qed.

Ltac forget_skip_ws :=
  repeat match goal with
         | |- context [JSON.skip_ws ?x] =>
             pose proof (skip_ws_length x);
             generalize dependent (JSON.skip_ws x); intros
         | H : context [JSON.skip_ws ?x] |- _ =>
             pose proof (skip_ws_length x);
             generalize dependent (JSON.skip_ws x); intros
         end.

(** With fuel for twice the length of the text, the descent does not
    reach the bottom. *)
Lemma parse_value_fuel (fuel : nat) :
  (forall l, (2 * length l + 1 <= fuel)%nat ->
             JSON.parse_value fuel l <> Throw RangeError) /\
  (forall l acc, (2 * length l + 2 <= fuel)%nat ->
                 JSON.parse_elements fuel l acc <> Throw RangeError) /\
  (forall l o, (2 * length l + 2 <= fuel)%nat ->
               JSON.parse_members fuel l o <> Throw RangeError).
Proof.
  induction fuel as [|f [IHv [IHe IHm]]];
    [repeat split; intros; lia|].
  destruct (parse_value_shorter f) as [Sv [Se Sm]].
  repeat split.
  - intros l Hf H. destruct l as [|c l]; [discriminate|].
    cbn [JSON.parse_value] in H. simpl in Hf.
    break_match_hyp H; try discriminate; subst;
      try (apply literal_throws in H; discriminate);
      lengths;
      [eapply IHm | eapply IHe]; try eassumption; simpl in *; lia.
  - intros l acc Hf H. cbn [JSON.parse_elements] in H.
    break_match_hyp H; try discriminate; subst.
    + apply Sv in Heqr. lengths.
      eapply IHe; [|eassumption]. forget_skip_ws. simpl in *. lia.
    + injection H as ->. eapply IHv; [|eassumption]. lia.
  - intros l o Hf H. cbn [JSON.parse_members] in H.
    break_match_hyp H; try discriminate; subst.
    + apply Sv in Heqr. lengths.
      eapply IHm; [|eassumption]. forget_skip_ws. simpl in *. lia.
    + injection H as ->. lengths.
      eapply IHv; [|eassumption]. forget_skip_ws. simpl in *. lia.
Qed.

(** [JSON.parse] throws a [SyntaxError] or returns. *)
Lemma parse_throws_SyntaxError (text : string) (e : exn) :
  JSON.parse text = Throw e -> e = SyntaxError.
Proof.
  unfold JSON.parse.
  destruct (JSON.parse_value _ _) as [[v r]|e'] eqn:E.
  - destruct (JSON.skip_ws r); [discriminate|]. now intros [= <-].
  - intros [= <-].
    assert (Hsyn : forall fuel,
               (forall l e, JSON.parse_value fuel l = Throw e ->
                                e = SyntaxError \/ e = RangeError) /\
               (forall l acc e, JSON.parse_elements fuel l acc = Throw e ->
                                e = SyntaxError \/ e = RangeError) /\
               (forall l o e, JSON.parse_members fuel l o = Throw e ->
                              e = SyntaxError \/ e = RangeError)).
    { induction fuel as [|f [IHv [IHe IHm]]].
      - repeat split; intros; right; simpl in *; congruence.
      - repeat split.
        + intros l e H. destruct l as [|c l]; [left; simpl in H; congruence|].
          cbn [JSON.parse_value] in H.
          break_match_hyp H; try discriminate; subst;
            try (apply literal_throws in H; auto);
            try (left; congruence); eauto.
        + intros l acc e H. cbn [JSON.parse_elements] in H.
          break_match_hyp H; try discriminate; subst;
            try (left; congruence); eauto.
          injection H as ->. eapply IHv; eauto.
        + intros l o e H. cbn [JSON.parse_members] in H.
          break_match_hyp H; try discriminate; subst;
            try (left; congruence); eauto.
          injection H as ->. eapply IHv; eauto. }
    destruct (proj1 (Hsyn _) _ _ E) as [->| ->]; [reflexivity|].
    exfalso. revert E. apply (proj1 (parse_value_fuel _)).
    pose proof (skip_ws_length (Str.chars text)). lia.
Qed.

(** ** Substrings *)

Lemma prefix_append (n r : string) : String.prefix n (n ++ r) = true.
Proof.
  induction n as [|a n IH]; simpl.
  - now destruct r.
  - destruct (ascii_dec a a); [exact IH | contradiction].
Qed.

Lemma includes_append (n r : string) : Str.includes (n ++ r) n = true.
Proof.
  pose proof (prefix_append n r) as H.
  destruct (n ++ r)%string; cbn [Str.includes]; rewrite H; reflexivity.
Qed.

Lemma includes_app_r (a b n : string) :
  Str.includes b n = true -> Str.includes (a ++ b) n = true.
Proof.
  intros H. induction a as [|c a IH]; [exact H|].
  change (String c a ++ b)%string with (String c (a ++ b)).
  cbn [Str.includes]. rewrite IH. apply orb_true_r.
Qed.

(** A string without the character [c] includes nothing that starts
    with [c]. *)
Lemma includes_without_char (c : ascii) (s n : string) :
  forallb (fun x => negb (Ascii.eqb x c)) (Str.chars s) = true ->
  Str.includes s (String c n) = false.
Proof.
  induction s as [|x s IH]; intros H; [reflexivity|].
  simpl in H. apply andb_true_iff in H. destruct H as [Hx Hs].
  cbn [Str.includes String.prefix]. rewrite (IH Hs), orb_false_r.
  destruct (ascii_dec c x) as [->|]; [|reflexivity].
  now rewrite Ascii.eqb_refl in Hx.
Qed.

(** The warning of a missing [routerProps] holds the URL of the
    request between double quotes. *)
Lemma missing_routerProps_names_url (u : URL.t) :
  Str.includes (missing_routerProps u) (Str.quoted (URL.href u)) = true.
Proof.
  unfold missing_routerProps.
  apply includes_app_r, includes_app_r, includes_app_r, includes_append.
Qed.

(** The warning of a failed parse holds no quoted text. *)
Lemma parsing_failed_names_no_url (h : string) :
  Str.includes parsing_failed (Str.quoted h) = false.
Proof.
  change (Str.quoted h) with (String (ascii_of_nat 34) (h ++ Str.dquote)).
  now apply includes_without_char.
Qed.

(** ** The request decoder *)

Section Decoder.

Variable newURL : string -> string -> result URL.t.
Variable cwd : string.

(** What [getPassedProps] can do: it returns, and it has logged
    nothing, or the one warning of a failed parse with the empty
    object as its value. *)
Lemma getPassedProps_returns (u : URL.t) (log : JS.Log) :
  exists v extra,
    getPassedProps u log = (Ok v, log ++ extra) /\
    (extra = [] \/
     exists e, extra = [Warning parsing_failed (Some e)] /\ v = VObject []).
Proof.
  unfold getPassedProps.
  destruct (URL.has "appProps" u); simpl.
  - unfold JS.try_catch.
    destruct (URL.get "appProps" u) as [raw|]; simpl.
    + unfold JS.lift.
      destruct (JSON.parse (Buffer.base64_to_utf8 raw)) as [v|e].
      * exists v, []. rewrite app_nil_r. auto.
      * exists (VObject []), [Warning parsing_failed (Some e)]. split; eauto.
    + exists (VObject []), [Warning parsing_failed (Some TypeError)]. split; eauto.
  - exists (VObject []), []. rewrite app_nil_r. auto.
Qed.

(** [processRequest] once the URL is parsed and [getRequestUrls] has
    returned. *)
Lemma processRequest_after_urls (req : IncomingMessage) (u : URL.t)
      (urls : RequestUrls) (log log1 : JS.Log) :
  parseUrl newURL req = Ok u ->
  getRequestUrls cwd u log = (Ok urls, log1) ->
  exists props extra,
    getPassedProps u log1 = (Ok props, log1 ++ extra) /\
    processRequest newURL cwd req log =
      (Ok {| getCurrentReqUrl := requestUrl urls;
             getCurrentBasePath := basePageUrl urls;
             getCurrentPathProps := props |}, log1 ++ extra).
Proof.
  intros Hp Hu.
  destruct (getPassedProps_returns u log1) as [props [extra [Hg _]]].
  exists props, extra. split; [exact Hg|].
  unfold processRequest, JS.bind, JS.lift.
  rewrite Hp, Hu, Hg. reflexivity.
Qed.

Lemma getRequestUrls_missing (u : URL.t) (log : JS.Log) :
  URL.has "routerProps" u = false ->
  getRequestUrls cwd u log =
    (Ok {| basePageUrl := VString "/"; requestUrl := "/" |},
     log ++ [Warning (missing_routerProps u) None]).
Proof.
  intros H. unfold getRequestUrls. rewrite H. reflexivity.
Qed.

(** [getRequestUrls] on a [routerProps] that parses to [v]. *)
Lemma getRequestUrls_parsed (u : URL.t) (raw : string) (v : value) (log : JS.Log) :
  URL.get "routerProps" u = Some raw ->
  JSON.parse (Buffer.base64_to_utf8 raw) = Ok v ->
  getRequestUrls cwd u log =
    (JS.rbind (JS.getProp v "basePath") (fun basePath =>
     JS.rbind (JS.getProp v "reqUrl") (fun reqUrl =>
     JS.rbind (Path.relative cwd basePath reqUrl) (fun rel =>
     Ok {| basePageUrl := basePath; requestUrl := "/" ++ rel |}))), log).
Proof.
  intros Hg Hp. unfold getRequestUrls.
  rewrite (get_has _ _ _ Hg), Hg. unfold JS.bind, JS.lift. rewrite Hp.
  destruct (JS.getProp v "basePath") as [b|]; simpl; auto.
  destruct (JS.getProp v "reqUrl") as [q|]; simpl; auto.
  destruct (Path.relative cwd b q); reflexivity.
Qed.

Lemma getRequestUrls_malformed (u : URL.t) (raw : string) (e : exn) (log : JS.Log) :
  URL.get "routerProps" u = Some raw ->
  JSON.parse (Buffer.base64_to_utf8 raw) = Throw e ->
  getRequestUrls cwd u log = (Throw e, log).
Proof.
  intros Hg Hp. unfold getRequestUrls.
  rewrite (get_has _ _ _ Hg), Hg. unfold JS.bind, JS.lift. now rewrite Hp.
Qed.

(** [getRequestUrls] returns in two ways only: by the fallback, or
    with two strings read from the parsed [routerProps]. *)
Lemma getRequestUrls_inv (u : URL.t) (urls : RequestUrls) (log log1 : JS.Log) :
  getRequestUrls cwd u log = (Ok urls, log1) ->
  (URL.has "routerProps" u = false /\
   urls = {| basePageUrl := VString "/"; requestUrl := "/" |} /\
   log1 = log ++ [Warning (missing_routerProps u) None])
  \/
  (URL.has "routerProps" u = true /\
   exists raw v basePath reqUrl,
     URL.get "routerProps" u = Some raw /\
     JSON.parse (Buffer.base64_to_utf8 raw) = Ok v /\
     JS.getProp v "basePath" = Ok (VString basePath) /\
     JS.getProp v "reqUrl" = Ok (VString reqUrl) /\
     urls = {| basePageUrl := VString basePath;
               requestUrl := "/" ++ Path.relative_strings cwd basePath reqUrl |} /\
     log1 = log).
Proof.
  intros H. destruct (URL.has "routerProps" u) eqn:Hh.
  - right. split; [reflexivity|].
    destruct (has_get _ _ Hh) as [raw Hg]. exists raw.
    destruct (JSON.parse (Buffer.base64_to_utf8 raw)) as [v|e] eqn:Hp.
    + rewrite (getRequestUrls_parsed u raw v log Hg Hp) in H.
      exists v.
      destruct (JS.getProp v "basePath") as [b|] eqn:Hb; simpl in H; [|discriminate].
      destruct (JS.getProp v "reqUrl") as [q|] eqn:Hq; simpl in H; [|discriminate].
      destruct b; simpl in H; try discriminate.
      destruct q; simpl in H; try discriminate.
      inversion H; subst. eauto 10.
    + rewrite (getRequestUrls_malformed u raw e log Hg Hp) in H. discriminate.
  - left. rewrite (getRequestUrls_missing u log Hh) in H.
    inversion H; subst. auto.
Qed.

(** [processRequest] returns only after the URL was parsed and
    [getRequestUrls] has returned. *)
Lemma processRequest_inv (req : IncomingMessage) (r : RequestData)
      (log log' : JS.Log) :
  processRequest newURL cwd req log = (Ok r, log') ->
  exists u urls log1,
    parseUrl newURL req = Ok u /\
    getRequestUrls cwd u log = (Ok urls, log1) /\
    getCurrentReqUrl r = requestUrl urls /\
    getCurrentBasePath r = basePageUrl urls.
Proof.
  unfold processRequest, JS.bind, JS.lift. intros H.
  destruct (parseUrl newURL req) as [u|] eqn:Hp; [|discriminate].
  destruct (getRequestUrls cwd u log) as [[urls|] log1] eqn:Hu; [|discriminate].
  destruct (getPassedProps u log1) as [[props|] log2]; [|discriminate].
  inversion H; subst. simpl. eauto 10.
Qed.

(** [processRequest] throws in two places only: where the URL is
    parsed, and where [getRequestUrls] decodes a [routerProps] that is
    there; in both no warning has been logged. *)
Lemma processRequest_throws_inv (req : IncomingMessage) (e : exn)
      (log log' : JS.Log) :
  processRequest newURL cwd req log = (Throw e, log') ->
  log' = log /\
  (parseUrl newURL req = Throw e \/
   exists u, parseUrl newURL req = Ok u /\
             URL.has "routerProps" u = true /\
             getRequestUrls cwd u log = (Throw e, log)).
Proof.
  unfold processRequest, JS.bind, JS.lift. intros H.
  destruct (parseUrl newURL req) as [u|e0] eqn:Hp.
  - destruct (getRequestUrls cwd u log) as [[urls|e1] log1] eqn:Hu.
    + destruct (getPassedProps_returns u log1) as [v [extra [Hg _]]].
      rewrite Hg in H. discriminate.
    + injection H as <- <-.
      destruct (URL.has "routerProps" u) eqn:Hh.
      * assert (log1 = log).
        { unfold getRequestUrls in Hu. rewrite Hh in Hu.
          unfold JS.bind, JS.lift, JS.throw, JS.ret in Hu.
          destruct (URL.get "routerProps" u); [|congruence].
          destruct (JSON.parse _) as [v|]; [|congruence].
          destruct (JS.getProp v "basePath"); [|congruence].
          destruct (JS.getProp v "reqUrl"); [|congruence].
          destruct (Path.relative cwd _ _); congruence. }
        subst. split; [reflexivity|]. right. exists u. auto.
      * rewrite (getRequestUrls_missing u log Hh) in Hu. discriminate.
  - injection H as <- <-. auto.
Qed.

(** C1, as the code has it: a [routerProps] that is present and is not
    JSON makes [processRequest] throw the error of [JSON.parse]; no
    warning is logged and no default is returned.  The claim says that
    no exception reaches the caller. *)
Theorem processRequest_throws_on_malformed_routerProps
        (req : IncomingMessage) (u : URL.t) (raw : string) (e : exn)
        (log : JS.Log) :
  parseUrl newURL req = Ok u ->
  URL.get "routerProps" u = Some raw ->
  JSON.parse (Buffer.base64_to_utf8 raw) = Throw e ->
  processRequest newURL cwd req log = (Throw e, log).
Proof.
  intros Hp Hg He. unfold processRequest, JS.bind, JS.lift.
  rewrite Hp, (getRequestUrls_malformed u raw e log Hg He). reflexivity.
Qed.

(** C2: when the query has no [routerProps], [processRequest] returns
    (it does not throw) with base path [/] and request URL [/], and of
    the warnings it logs exactly one names the URL of the request: the
    first one, whose message is [Missing "routerProps" for "<href>"
    request. Fallback to / & /] with the [href] of the request URL
    between the quotes.  The only other warning it can log is that of
    a failed parse of [appProps], which does not hold the URL. *)
Theorem processRequest_without_routerProps
        (req : IncomingMessage) (u : URL.t) (log : JS.Log) :
  parseUrl newURL req = Ok u ->
  URL.has "routerProps" u = false ->
  exists props extra,
    processRequest newURL cwd req log =
      (Ok {| getCurrentReqUrl := "/";
             getCurrentBasePath := VString "/";
             getCurrentPathProps := props |},
       log ++ Warning (missing_routerProps u) None :: extra) /\
    (extra = [] \/ exists e, extra = [Warning parsing_failed (Some e)]) /\
    filter (fun w => String.eqb (JS.message w) (missing_routerProps u))
           (Warning (missing_routerProps u) None :: extra)
      = [Warning (missing_routerProps u) None] /\
    missing_routerProps u
    = ("Missing " ++ Str.quoted "routerProps" ++ " for "
         ++ Str.quoted (URL.href u) ++ " request. Fallback to / & /")%string /\
    Str.includes (missing_routerProps u) (Str.quoted (URL.href u)) = true /\
    filter (fun w => Str.includes (JS.message w) (Str.quoted (URL.href u)))
           (Warning (missing_routerProps u) None :: extra)
      = [Warning (missing_routerProps u) None].
Proof.
  intros Hp Hh.
  pose proof (getRequestUrls_missing u log Hh) as Hu.
  destruct (processRequest_after_urls req u _ log _ Hp Hu)
    as [props [extra [Hg Hr]]].
  destruct (getPassedProps_returns u (log ++ [Warning (missing_routerProps u) None]))
    as [props' [extra' [Hg' Hx]]].
  rewrite Hg in Hg'. injection Hg' as Hv Hl.
  apply app_inv_head in Hl. subst extra' props'.
  exists props, extra. split; [|split; [|split; [|split; [|split]]]].
  - rewrite Hr. simpl. now rewrite <- app_assoc.
  - destruct Hx as [->|[e [-> _]]]; eauto.
  - simpl. rewrite String.eqb_refl. f_equal.
    destruct Hx as [->|[e [-> _]]]; [reflexivity|].
    simpl. unfold missing_routerProps, parsing_failed. simpl. reflexivity.
  - reflexivity.
  - apply missing_routerProps_names_url.
  - cbn [filter JS.message]. rewrite missing_routerProps_names_url. f_equal.
    destruct Hx as [->|[e [-> _]]]; [reflexivity|].
    cbn [filter JS.message]. now rewrite parsing_failed_names_no_url.
Qed.

(** C3: when [routerProps] is the base64 of the JSON text with
    [basePath] [/foo] and [reqUrl] [/foo/bar], [processRequest] returns
    base path [/foo] and request URL [/bar]: a slash, then the path from
    [/foo] to [/foo/bar] as [path.relative] computes it. *)
Theorem processRequest_foo_bar
        (req : IncomingMessage) (u : URL.t) (log : JS.Log) :
  parseUrl newURL req = Ok u ->
  URL.get "routerProps" u = Some (Buffer.utf8_to_base64 Sample.routerProps_foo_bar) ->
  exists props extra,
    processRequest newURL cwd req log =
      (Ok {| getCurrentReqUrl := "/bar";
             getCurrentBasePath := VString "/foo";
             getCurrentPathProps := props |}, log ++ extra) /\
    "/bar" = ("/" ++ Path.relative_strings cwd "/foo" "/foo/bar")%string.
Proof.
  intros Hp Hg.
  assert (Hj : JSON.parse (Buffer.base64_to_utf8
                             (Buffer.utf8_to_base64 Sample.routerProps_foo_bar))
               = Ok (VObject [("basePath", VString "/foo");
                              ("reqUrl", VString "/foo/bar")]))
    by (vm_compute; reflexivity).
  pose proof (getRequestUrls_parsed u _ _ log Hg Hj) as Hu.
  change (getRequestUrls cwd u log =
          (Ok {| basePageUrl := VString "/foo"; requestUrl := "/bar" |}, log)) in Hu.
  destruct (processRequest_after_urls req u _ log log Hp Hu)
    as [props [extra [_ Hr]]].
  exists props, extra. split; [exact Hr | reflexivity].
Qed.

(** C4: when [routerProps] decodes to a JSON object whose [basePath]
    and [reqUrl] are the same string, [processRequest] returns the
    request URL [/]: the relative path between equal paths is empty. *)
Theorem processRequest_reqUrl_equals_basePath
        (req : IncomingMessage) (u : URL.t) (raw : string)
        (o : JS.obj value) (p : string) (log : JS.Log) :
  parseUrl newURL req = Ok u ->
  URL.get "routerProps" u = Some raw ->
  JSON.parse (Buffer.base64_to_utf8 raw) = Ok (VObject o) ->
  JS.lookup "basePath" o = Some (VString p) ->
  JS.lookup "reqUrl" o = Some (VString p) ->
  Path.relative_strings cwd p p = "" /\
  exists props extra,
    processRequest newURL cwd req log =
      (Ok {| getCurrentReqUrl := "/";
             getCurrentBasePath := VString p;
             getCurrentPathProps := props |}, log ++ extra).
Proof.
  intros Hp Hg Hj Hb Hq.
  assert (Hrel : Path.relative_strings cwd p p = "")
    by (unfold Path.relative_strings; now rewrite String.eqb_refl).
  split; [exact Hrel|].
  pose proof (getRequestUrls_parsed u _ _ log Hg Hj) as Hu.
  simpl in Hu. rewrite Hb, Hq in Hu. simpl in Hu. rewrite Hrel in Hu.
  destruct (processRequest_after_urls req u _ log log Hp Hu)
    as [props [extra [_ Hr]]].
  exists props, extra. exact Hr.
Qed.

(** C5: when [appProps] is present and its base64 decoding is not
    JSON, [getPassedProps] catches the error of the parse, logs one
    warning that carries it, and returns the empty object;
    [processRequest] then returns that empty object as the path props
    whenever [getRequestUrls] has returned. *)
Theorem getPassedProps_malformed_appProps
        (u : URL.t) (raw : string) (e : exn) :
  URL.get "appProps" u = Some raw ->
  JSON.parse (Buffer.base64_to_utf8 raw) = Throw e ->
  (forall log,
      getPassedProps u log =
        (Ok (VObject []), log ++ [Warning parsing_failed (Some e)])) /\
  (forall req urls log log1,
      parseUrl newURL req = Ok u ->
      getRequestUrls cwd u log = (Ok urls, log1) ->
      processRequest newURL cwd req log =
        (Ok {| getCurrentReqUrl := requestUrl urls;
               getCurrentBasePath := basePageUrl urls;
               getCurrentPathProps := VObject [] |},
         log1 ++ [Warning parsing_failed (Some e)])).
Proof.
  intros Hg He.
  assert (Hpp : forall log,
             getPassedProps u log =
               (Ok (VObject []), log ++ [Warning parsing_failed (Some e)])).
  { intros log. unfold getPassedProps.
    rewrite (get_has _ _ _ Hg), Hg. simpl.
    unfold JS.try_catch, JS.lift. now rewrite He. }
  split; [exact Hpp|].
  intros req urls log log1 Hp Hu.
  unfold processRequest, JS.bind, JS.lift.
  rewrite Hp, Hu, Hpp. reflexivity.
Qed.

(** C6: whenever [processRequest] returns, the request URL it returns
    begins with a slash: it is [/] when [routerProps] is missing, and
    otherwise a slash followed by the relative path from [basePath] to
    [reqUrl], the two strings of the decoded [routerProps]. *)
Theorem currentReqUrl_begins_with_slash
        (req : IncomingMessage) (r : RequestData) (log log' : JS.Log) :
  processRequest newURL cwd req log = (Ok r, log') ->
  Str.startsWith (getCurrentReqUrl r) "/" = true /\
  exists u,
    parseUrl newURL req = Ok u /\
    ((URL.has "routerProps" u = false /\ getCurrentReqUrl r = "/")
     \/
     (URL.has "routerProps" u = true /\
      exists raw v basePath reqUrl,
        URL.get "routerProps" u = Some raw /\
        JSON.parse (Buffer.base64_to_utf8 raw) = Ok v /\
        JS.getProp v "basePath" = Ok (VString basePath) /\
        JS.getProp v "reqUrl" = Ok (VString reqUrl) /\
        getCurrentReqUrl r =
          ("/" ++ Path.relative_strings cwd basePath reqUrl)%string)).
Proof.
  intros H.
  destruct (processRequest_inv req r log log' H)
    as [u [urls [log1 [Hp [Hu [Hr Hb]]]]]].
  destruct (getRequestUrls_inv u urls log log1 Hu)
    as [[Hh [-> _]] | [Hh [raw [v [b [q [Hg [Hj [Hvb [Hvq [-> _]]]]]]]]]]];
    simpl in Hr.
  - split; [now rewrite Hr|].
    exists u. split; [exact Hp|]. left. auto.
  - split; [rewrite Hr; apply startsWith_cons|].
    exists u. split; [exact Hp|]. right. split; [exact Hh|].
    exists raw, v, b, q. auto.
Qed.

End Decoder.

(** Witnesses of the decoder's theorems, on the sample platform. *)

Lemma processRequest_throws_on_malformed_routerProps_witness :
  processRequest Sample.newURL Sample.cwd
    (Http.Request "/news?routerProps=bm90LWpzb24h" (Some "localhost")) []
  = (Throw SyntaxError, []).
Proof.
  exact (processRequest_throws_on_malformed_routerProps
           Sample.newURL Sample.cwd
           (Http.Request "/news?routerProps=bm90LWpzb24h" (Some "localhost"))
           (URL.Make "http://localhost/news?routerProps=bm90LWpzb24h"
                     [("routerProps", "bm90LWpzb24h")])
           "bm90LWpzb24h" SyntaxError [] eq_refl eq_refl eq_refl).
Defined.

Lemma processRequest_without_routerProps_witness :
  exists props extra,
    processRequest Sample.newURL Sample.cwd
      (Http.Request "/news?page=2" (Some "localhost")) []
    = (Ok {| getCurrentReqUrl := "/";
             getCurrentBasePath := VString "/";
             getCurrentPathProps := props |},
       [] ++ Warning (missing_routerProps
                        (URL.Make "http://localhost/news?page=2" [("page", "2")]))
                     None :: extra) /\
    (extra = [] \/ exists e, extra = [Warning parsing_failed (Some e)]) /\
    filter (fun w => String.eqb (JS.message w)
                       (missing_routerProps
                          (URL.Make "http://localhost/news?page=2" [("page", "2")])))
           (Warning (missing_routerProps
                       (URL.Make "http://localhost/news?page=2" [("page", "2")]))
                    None :: extra)
    = [Warning (missing_routerProps
                  (URL.Make "http://localhost/news?page=2" [("page", "2")])) None] /\
    missing_routerProps (URL.Make "http://localhost/news?page=2" [("page", "2")])
    = ("Missing " ++ Str.quoted "routerProps" ++ " for "
         ++ Str.quoted "http://localhost/news?page=2"
         ++ " request. Fallback to / & /")%string /\
    Str.includes
      (missing_routerProps (URL.Make "http://localhost/news?page=2" [("page", "2")]))
      (Str.quoted "http://localhost/news?page=2") = true /\
    filter (fun w => Str.includes (JS.message w)
                       (Str.quoted "http://localhost/news?page=2"))
           (Warning (missing_routerProps
                       (URL.Make "http://localhost/news?page=2" [("page", "2")]))
                    None :: extra)
    = [Warning (missing_routerProps
                  (URL.Make "http://localhost/news?page=2" [("page", "2")])) None].
Proof.
  exact (processRequest_without_routerProps
           Sample.newURL Sample.cwd
           (Http.Request "/news?page=2" (Some "localhost"))
           (URL.Make "http://localhost/news?page=2" [("page", "2")])
           [] eq_refl eq_refl).
Defined.

Lemma processRequest_foo_bar_witness :
  exists props extra,
    processRequest Sample.newURL Sample.cwd
      (Http.Request
         "/?routerProps=eyJiYXNlUGF0aCI6Ii9mb28iLCJyZXFVcmwiOiIvZm9vL2JhciJ9"
         (Some "localhost")) []
    = (Ok {| getCurrentReqUrl := "/bar";
             getCurrentBasePath := VString "/foo";
             getCurrentPathProps := props |}, [] ++ extra) /\
    "/bar" = ("/" ++ Path.relative_strings Sample.cwd "/foo" "/foo/bar")%string.
Proof.
  exact (processRequest_foo_bar
           Sample.newURL Sample.cwd
           (Http.Request
              "/?routerProps=eyJiYXNlUGF0aCI6Ii9mb28iLCJyZXFVcmwiOiIvZm9vL2JhciJ9"
              (Some "localhost"))
           (URL.Make
              "http://localhost/?routerProps=eyJiYXNlUGF0aCI6Ii9mb28iLCJyZXFVcmwiOiIvZm9vL2JhciJ9"
              [("routerProps", "eyJiYXNlUGF0aCI6Ii9mb28iLCJyZXFVcmwiOiIvZm9vL2JhciJ9")])
           [] eq_refl eq_refl).
Defined.

Lemma processRequest_reqUrl_equals_basePath_witness :
  Path.relative_strings Sample.cwd "/shop" "/shop" = "" /\
  exists props extra,
    processRequest Sample.newURL Sample.cwd
      (Http.Request ("/?routerProps=" ++ routerProps_shop) (Some "localhost")) []
    = (Ok {| getCurrentReqUrl := "/";
             getCurrentBasePath := VString "/shop";
             getCurrentPathProps := props |}, [] ++ extra).
Proof.
  exact (processRequest_reqUrl_equals_basePath
           Sample.newURL Sample.cwd
           (Http.Request ("/?routerProps=" ++ routerProps_shop) (Some "localhost"))
           (URL.Make ("http://localhost/?routerProps=" ++ routerProps_shop)
                     [("routerProps", routerProps_shop)])
           routerProps_shop
           [("basePath", VString "/shop"); ("reqUrl", VString "/shop")]
           "/shop" [] eq_refl eq_refl eq_refl eq_refl eq_refl).
Defined.

Lemma getPassedProps_malformed_appProps_witness :
  getPassedProps (URL.Make "http://localhost/?appProps=bm90LWpzb24="
                           [("appProps", "bm90LWpzb24=")]) []
  = (Ok (VObject []), [Warning parsing_failed (Some SyntaxError)]) /\
  processRequest Sample.newURL Sample.cwd
    (Http.Request "/?appProps=bm90LWpzb24=" (Some "localhost")) []
  = (Ok {| getCurrentReqUrl := "/";
           getCurrentBasePath := VString "/";
           getCurrentPathProps := VObject [] |},
     [Warning (missing_routerProps
                 (URL.Make "http://localhost/?appProps=bm90LWpzb24="
                           [("appProps", "bm90LWpzb24=")])) None;
      Warning parsing_failed (Some SyntaxError)]).
Proof.
  pose (u := URL.Make "http://localhost/?appProps=bm90LWpzb24="
                      [("appProps", "bm90LWpzb24=")]).
  pose (H := getPassedProps_malformed_appProps
               Sample.newURL Sample.cwd u "bm90LWpzb24=" SyntaxError
               eq_refl eq_refl).
  split.
  - exact (proj1 H []).
  - exact (proj2 H (Http.Request "/?appProps=bm90LWpzb24=" (Some "localhost"))
                 {| basePageUrl := VString "/"; requestUrl := "/" |}
                 [] [Warning (missing_routerProps u) None] eq_refl eq_refl).
Defined.

Lemma currentReqUrl_begins_with_slash_witness :
  Str.startsWith "/bar" "/" = true /\
  exists u,
    parseUrl Sample.newURL
      (Http.Request
         "/?routerProps=eyJiYXNlUGF0aCI6Ii9mb28iLCJyZXFVcmwiOiIvZm9vL2JhciJ9"
         (Some "localhost")) = Ok u /\
    ((URL.has "routerProps" u = false /\ "/bar" = "/")
     \/
     (URL.has "routerProps" u = true /\
      exists raw v basePath reqUrl,
        URL.get "routerProps" u = Some raw /\
        JSON.parse (Buffer.base64_to_utf8 raw) = Ok v /\
        JS.getProp v "basePath" = Ok (VString basePath) /\
        JS.getProp v "reqUrl" = Ok (VString reqUrl) /\
        "/bar" = ("/" ++ Path.relative_strings Sample.cwd basePath reqUrl)%string)).
Proof.
  exact (currentReqUrl_begins_with_slash
           Sample.newURL Sample.cwd
           (Http.Request
              "/?routerProps=eyJiYXNlUGF0aCI6Ii9mb28iLCJyZXFVcmwiOiIvZm9vL2JhciJ9"
              (Some "localhost"))
           {| getCurrentReqUrl := "/bar";
              getCurrentBasePath := VString "/foo";
              getCurrentPathProps := VObject [] |}
           [] [] eq_refl).
Defined.

(** ** The response encoder *)

Lemma prefix_app (p s : string) :
  String.prefix p s = true -> exists r, s = (p ++ r)%string.
Proof.
  revert s. induction p as [|a p IH]; intros s H.
  - now exists s.
  - destruct s as [|b s]; simpl in H; [discriminate|].
    destruct (ascii_dec a b) as [->|]; [|discriminate].
    destruct (IH s H) as [r ->]. now exists r.
Qed.

(** A string that starts with [needle] includes it. *)
Lemma startsWith_includes (s needle : string) :
  Str.startsWith s needle = true -> Str.includes s needle = true.
Proof.
  unfold Str.startsWith. intros H.
  destruct s; cbn [Str.includes]; rewrite H; reflexivity.
Qed.

Lemma flat_map_ext_in_keys {A B} (f g : A -> list B) (l : list A) :
  (forall a, In a l -> f a = g a) -> flat_map f l = flat_map g l.
Proof.
  induction l as [|a l IH]; simpl; intros H; auto.
  rewrite (H a) by auto. f_equal. apply IH. auto.
Qed.

Lemma In_insert_sorted (n : Z) (k x : string) (l : list (Z * string)) :
  In x (map snd (JS.insert_sorted n k l)) -> x = k \/ In x (map snd l).
Proof.
  induction l as [|[m k'] l IH]; simpl.
  - intros [H|[]]; auto.
  - destruct (n <? m)%Z; simpl; intros [H|H]; auto.
    destruct (IH H); auto.
Qed.

Lemma index_keys_In {A} (o : JS.obj A) (x : string) :
  In x (JS.index_keys o) -> In x (map fst o).
Proof.
  unfold JS.index_keys, JS.index_pairs.
  assert (G : forall acc,
             In x (map snd
                     (fold_left
                        (fun acc kv => match JS.arrayIndex (fst kv) with
                                       | Some n => JS.insert_sorted n (fst kv) acc
                                       | None => acc
                                       end) o acc)) ->
             In x (map snd acc) \/ In x (map fst o)).
  { induction o as [|[k v] o IH]; intros acc H; simpl in *; auto.
    destruct (IH _ H) as [H1|H1]; auto.
    destruct (JS.arrayIndex k); auto.
    destruct (In_insert_sorted _ _ _ _ H1); auto. }
  intros H. destruct (G [] H) as [[]|]; assumption.
Qed.

Lemma ownKeys_In {A} (o : JS.obj A) (x : string) :
  In x (JS.ownKeys o) -> In x (map fst o).
Proof.
  unfold JS.ownKeys, JS.name_keys. intros H.
  apply in_app_or in H. destruct H as [H|H].
  - now apply index_keys_In.
  - now apply filter_In in H.
Qed.

Lemma lookup_In {A} (o : JS.obj A) (k : string) :
  In k (map fst o) -> exists v, JS.lookup k o = Some v.
Proof.
  induction o as [|[k' v'] o IH]; simpl; [intros []|].
  intros H. destruct (String.eqb k' k) eqn:E; [eauto|].
  destruct H as [H|H]; [|auto].
  subst. now rewrite String.eqb_refl in E.
Qed.

Lemma insert_sorted_HdRel (a n : Z) (k : string) (l : list (Z * string)) :
  HdRel Z.le a (map fst l) -> (a <= n)%Z ->
  HdRel Z.le a (map fst (JS.insert_sorted n k l)).
Proof.
  destruct l as [|[m k'] l]; simpl; intros H Han.
  - now constructor.
  - destruct (n <? m)%Z; simpl; constructor; [exact Han|].
    now inversion H.
Qed.

Lemma insert_sorted_Sorted (n : Z) (k : string) (l : list (Z * string)) :
  Sorted Z.le (map fst l) -> Sorted Z.le (map fst (JS.insert_sorted n k l)).
Proof.
  induction l as [|[m k'] l IH]; simpl; intros H.
  - repeat constructor.
  - destruct (n <? m)%Z eqn:E; simpl.
    + constructor; [exact H|]. constructor. apply Z.ltb_lt in E. lia.
    + inversion H as [|? ? Hs Hh]; subst. constructor; [now apply IH|].
      apply insert_sorted_HdRel; [exact Hh|]. apply Z.ltb_ge in E. exact E.
Qed.

Lemma insert_sorted_Forall (P : Z * string -> Prop) (n : Z) (k : string)
      (l : list (Z * string)) :
  P (n, k) -> Forall P l -> Forall P (JS.insert_sorted n k l).
Proof.
  intros Hp. induction l as [|[m k'] l IH]; simpl; intros H.
  - now constructor.
  - destruct (n <? m)%Z; [now constructor|].
    inversion H; subst. constructor; auto.
Qed.

(** The array-index keys come in ascending order of their numbers. *)
Lemma index_pairs_sorted {A} (o : JS.obj A) :
  Sorted Z.le (map fst (JS.index_pairs o)) /\
  Forall (fun nk => JS.arrayIndex (snd nk) = Some (fst nk)) (JS.index_pairs o).
Proof.
  unfold JS.index_pairs.
  assert (G : forall acc,
             Sorted Z.le (map fst acc) ->
             Forall (fun nk => JS.arrayIndex (snd nk) = Some (fst nk)) acc ->
             let r := fold_left
                        (fun acc (kv : string * A) =>
                           match JS.arrayIndex (fst kv) with
                           | Some n => JS.insert_sorted n (fst kv) acc
                           | None => acc
                           end) o acc in
             Sorted Z.le (map fst r) /\
             Forall (fun nk => JS.arrayIndex (snd nk) = Some (fst nk)) r).
  { induction o as [|[k v] o IH]; intros acc Hs Hf; simpl; [auto|].
    destruct (JS.arrayIndex k) as [n|] eqn:E; [|now apply IH].
    apply IH; [now apply insert_sorted_Sorted|].
    now apply insert_sorted_Forall. }
  apply G; constructor.
Qed.

Lemma index_keys_ascending {A} (o : JS.obj A) :
  exists ns, map JS.arrayIndex (JS.index_keys o) = map Some ns /\ Sorted Z.le ns.
Proof.
  destruct (index_pairs_sorted o) as [Hs Hf].
  exists (map fst (JS.index_pairs o)). split; [|exact Hs].
  unfold JS.index_keys. rewrite !map_map.
  apply map_ext_in. intros nk Hin.
  rewrite Forall_forall in Hf. now apply Hf.
Qed.

(** Without array-index keys, [for-in] follows the order of creation. *)
Lemma ownKeys_creation_order {A} (o : JS.obj A) :
  (forall k, In k (map fst o) -> JS.arrayIndex k = None) ->
  JS.ownKeys o = map fst o.
Proof.
  intros H. unfold JS.ownKeys, JS.index_keys, JS.index_pairs, JS.name_keys.
  assert (G : forall acc,
             fold_left
               (fun acc (kv : string * A) =>
                  match JS.arrayIndex (fst kv) with
                  | Some n => JS.insert_sorted n (fst kv) acc
                  | None => acc
                  end) o acc = acc).
  { induction o as [|[k v] o IH]; intros acc; simpl; auto.
    rewrite (H k) by (simpl; auto). apply IH.
    intros k' Hk'. apply H. simpl. auto. }
  rewrite G. simpl.
  induction (map fst o) as [|k ks IH]; simpl; auto.
  rewrite (H k) by (simpl; auto). f_equal. apply IH.
  intros k' Hk'. apply H. simpl. auto.
Qed.

Lemma own_entries_creation_order {A} (o : JS.obj A) :
  NoDup (map fst o) ->
  (forall k, In k (map fst o) -> JS.arrayIndex k = None) ->
  own_entries o = o.
Proof.
  intros Hnd Hidx. unfold own_entries. rewrite (ownKeys_creation_order o Hidx).
  clear Hidx. induction o as [|[k v] o IH]; simpl; auto.
  rewrite String.eqb_refl. simpl. f_equal.
  inversion Hnd as [|? ? Hnotin Hnd']; subst.
  rewrite <- (IH Hnd') at 2.
  apply flat_map_ext_in_keys.
  intros k' Hk'. destruct (String.eqb k k') eqn:E; auto.
  apply String.eqb_eq in E. subst. contradiction.
Qed.

Section Encoder.

Variable urljoin_other : value -> string -> result string.
Variable this : IlcSdk.

Lemma buildLink_optional (path : string) (publicPath : option string) :
  buildLink urljoin_other this path (optional publicPath)
  = Ok (link_url this path publicPath).
Proof.
  unfold buildLink, link_url, effective_public_path.
  destruct (Str.includes path "http://" || Str.includes path "https://");
    [reflexivity|].
  destruct publicPath as [p|]; simpl; [|reflexivity].
  destruct (String.eqb p ""); reflexivity.
Qed.

(** C7: for the response data with the page title [Hi] and nothing
    else, [processResponse] returns after one effect on the response:
    the header [x-head-title] holds the base64 of [<title>Hi</title>].
    The headers [Link] and [x-head-meta] are as they were before the
    call. *)
Theorem processResponse_title_only (reqData : RequestData) (res : ServerResponse) :
  let data := {| pageTitle := Some "Hi"; pageMetaTags := None; appAssets := None |} in
  let res' := Http.Response
                (JS.set "x-head-title" (Buffer.utf8_to_base64 "<title>Hi</title>")
                        (Http.headers res)) in
  processResponse urljoin_other this reqData data res = (Ok tt, res') /\
  Http.getHeader "x-head-title" res' = Some "PHRpdGxlPkhpPC90aXRsZT4=" /\
  Http.getHeader "Link" res' = Http.getHeader "Link" res /\
  Http.getHeader "x-head-meta" res' = Http.getHeader "x-head-meta" res.
Proof.
  intros data res'. split; [reflexivity|].
  unfold Http.getHeader, res'. simpl Http.headers. simpl Http.toLowerCase.
  split; [|split].
  - now rewrite lookup_set_same.
  - apply lookup_set_other. discriminate.
  - apply lookup_set_other. discriminate.
Qed.

(** C10: [buildLink] tests whether the path contains [http://] or
    [https://], at any place: such a path is returned as it is and never
    joined onto a public path, whatever [publicPath] is.  The relative
    path [assets/http://x.js] is one of them. *)
Theorem buildLink_substring_test (path : string) (publicPath : value) :
  Str.includes path "http://" = true \/ Str.includes path "https://" = true ->
  buildLink urljoin_other this path publicPath = Ok path /\
  Str.startsWith "assets/http://x.js" "http://" = false /\
  Str.startsWith "assets/http://x.js" "https://" = false /\
  buildLink urljoin_other this "assets/http://x.js" publicPath
  = Ok "assets/http://x.js".
Proof.
  intros H. split; [|repeat split].
  unfold buildLink. destruct H as [-> | ->]; [reflexivity|].
  now rewrite orb_true_r.
Qed.

Lemma push_dependencies_entries (deps : JS.obj string) (publicPath : option string)
      (keys : list string) (links : list string) :
  JS.hasOwn "hasOwnProperty" deps = false ->
  (forall k, In k keys -> In k (map fst deps)) ->
  push_dependencies urljoin_other this deps (optional publicPath) keys links
  = (Ok tt,
     links ++ dependency_links this publicPath
                (flat_map (fun k => match JS.lookup k deps with
                                    | Some v => [(k, v)]
                                    | None => []
                                    end) keys)).
Proof.
  intros Hm. revert links.
  induction keys as [|k keys IH]; intros links Hin.
  - simpl. unfold JS.ret. now rewrite app_nil_r.
  - destruct (lookup_In deps k (Hin k (or_introl eq_refl))) as [d Hd].
    cbn [push_dependencies flat_map]. unfold JS.bind at 1.
    unfold JS.bind at 1. rewrite Hm.
    unfold JS.ret at 1. unfold JS.hasOwn at 1. rewrite Hd.
    cbn [negb]. unfold JS.bind at 1, JS.lift, push.
    rewrite buildLink_optional.
    rewrite IH by (intros k' Hk'; apply Hin; simpl; auto).
    unfold dependency_links. rewrite map_app, <- app_assoc. reflexivity.
Qed.

Lemma getLinkHeader_entries (a : AppAssets) (publicPath : option string) :
  method_visible a ->
  getLinkHeader urljoin_other this a (optional publicPath)
  = Ok (Str.join "," (link_entries this a publicPath)).
Proof.
  intros Hm. unfold getLinkHeader, getLinkHeader_links, link_entries.
  unfold JS.bind at 1. unfold JS.bind at 2.
  assert (Hdeps :
            forall links,
              match dependencies a with
              | Some deps =>
                  push_dependencies urljoin_other this deps (optional publicPath)
                                    (JS.ownKeys deps)
              | None => JS.ret tt
              end links
              = (Ok tt, links ++ match dependencies a with
                                 | Some deps =>
                                     dependency_links this publicPath (own_entries deps)
                                 | None => []
                                 end)).
  { intros links. unfold method_visible in Hm.
    destruct (dependencies a) as [deps|].
    - apply push_dependencies_entries; [exact Hm|]. apply ownKeys_In.
    - unfold JS.ret. now rewrite app_nil_r. }
  destruct (nonempty (cssBundle a)) as [css|];
    destruct (nonempty (spaBundle a)) as [spa|];
    unfold JS.bind, JS.lift, JS.ret, push;
    rewrite ?buildLink_optional; simpl; rewrite Hdeps; reflexivity.
Qed.

End Encoder.

(** *** [url-join] on plain paths *)

Lemma chars_app (a b : string) :
  Str.chars (a ++ b) = Str.chars a ++ Str.chars b.
Proof.
  induction a as [|c a IH]; simpl; [reflexivity|]. now rewrite <- IH.
Qed.

Lemma chars_of_chars (l : list ascii) : Str.chars (Str.of_chars l) = l.
Proof. apply list_ascii_of_string_of_list_ascii. Qed.

Lemma of_chars_chars (s : string) : Str.of_chars (Str.chars s) = s.
Proof. apply string_of_list_ascii_of_string. Qed.

Lemma append_empty_r (s : string) : (s ++ "")%string = s.
Proof. induction s as [|c s IH]; simpl; [reflexivity|]. now rewrite IH. Qed.

Lemma plain_app (a b : string) : plain (a ++ b) = plain a && plain b.
Proof. unfold plain, plain_chars. rewrite chars_app. apply forallb_app. Qed.

Lemma plain_chars_rev (l : list ascii) : plain_chars (rev l) = plain_chars l.
Proof.
  unfold plain_chars. induction l as [|c l IH]; simpl; [reflexivity|].
  rewrite forallb_app, IH. simpl. rewrite andb_true_r. apply andb_comm.
Qed.

Lemma plain_chars_drop_slashes (l : list ascii) :
  plain_chars l = true -> plain_chars (UrlJoin.drop_slashes l) = true.
Proof.
  induction l as [|c l IH]; simpl; [auto|].
  intros H. destruct (UrlJoin.is_slash c); [|exact H].
  apply andb_true_iff in H. apply IH, H.
Qed.

Lemma plain_strip_leading (s : string) :
  plain s = true -> plain (UrlJoin.strip_leading s) = true.
Proof.
  unfold plain, UrlJoin.strip_leading. rewrite chars_of_chars.
  apply plain_chars_drop_slashes.
Qed.

Lemma plain_strip_trailing (s : string) :
  plain s = true -> plain (UrlJoin.strip_trailing s) = true.
Proof.
  unfold plain, UrlJoin.strip_trailing. rewrite chars_of_chars. intros H.
  rewrite plain_chars_rev. apply plain_chars_drop_slashes.
  now rewrite plain_chars_rev.
Qed.

Lemma plain_collapse_trailing (s : string) :
  plain s = true -> plain (UrlJoin.collapse_trailing s) = true.
Proof.
  unfold plain, UrlJoin.collapse_trailing. intros H.
  destruct (rev (Str.chars s)) as [|c r] eqn:E; [exact H|].
  destruct (UrlJoin.is_slash c); [|exact H].
  rewrite chars_of_chars, plain_chars_rev. simpl.
  apply plain_chars_drop_slashes.
  rewrite <- plain_chars_rev, E in H. simpl in H.
  apply andb_true_iff in H. apply H.
Qed.

(** A plain string has no scheme. *)
Lemma scheme_plain (s : string) : plain s = true -> UrlJoin.scheme s = None.
Proof.
  unfold plain, UrlJoin.scheme. intros H.
  assert (G : forall acc, UrlJoin.scheme_go acc (Str.chars s) = None).
  { induction (Str.chars s) as [|c l IH]; intros acc; simpl; [reflexivity|].
    simpl in H. apply andb_true_iff in H. destruct H as [Hc Hl].
    destruct (UrlJoin.is_slash c); [reflexivity|].
    unfold special in Hc.
    destruct (Ascii.eqb c ":"%char); [discriminate|]. now apply IH. }
  now rewrite G.
Qed.

Lemma drop_slash_before_params_plain (l : list ascii) :
  plain_chars l = true -> UrlJoin.drop_slash_before_params l = l.
Proof.
  induction l as [|c l IH]; simpl; [reflexivity|].
  intros H. apply andb_true_iff in H. destruct H as [_ Hl].
  rewrite (IH Hl).
  destruct (UrlJoin.is_slash c); [|reflexivity].
  destruct l as [|d l']; [reflexivity|].
  simpl in Hl. apply andb_true_iff in Hl. destruct Hl as [Hd _].
  unfold special in Hd.
  destruct (Ascii.eqb d ":"%char); [discriminate|].
  destruct (Ascii.eqb d "?"%char); [discriminate|].
  destruct (Ascii.eqb d "&"%char); [discriminate|].
  destruct (Ascii.eqb d "#"%char); [discriminate|].
  reflexivity.
Qed.

Lemma params_plain (s : string) : plain s = true -> UrlJoin.params s = s.
Proof.
  unfold plain, UrlJoin.params, Str.split. intros H.
  assert (G : forall cur,
             Str.split_go "?"%char cur (Str.chars s)
             = [Str.of_chars (rev cur ++ Str.chars s)]).
  { induction (Str.chars s) as [|c l IH]; intros cur; simpl.
    - now rewrite app_nil_r.
    - simpl in H. apply andb_true_iff in H. destruct H as [Hc Hl].
      unfold special in Hc.
      destruct (Ascii.eqb c ":"%char); [discriminate|].
      destruct (Ascii.eqb c "?"%char); [discriminate|].
      rewrite (IH Hl). simpl. now rewrite <- app_assoc. }
  rewrite G. simpl. rewrite of_chars_chars. now rewrite !append_empty_r.
Qed.

(** On a plain public path and a plain path, both not empty, [url-join]
    puts exactly one slash between the public path without its trailing
    slashes and the path without its leading ones; nothing else goes,
    but for the slashes that end the path, which become one. *)
Lemma urljoin_plain (p path : string) :
  plain p = true -> plain path = true -> p <> "" -> path <> "" ->
  UrlJoin.normalize [p; path]
  = (UrlJoin.strip_trailing p ++ "/"
       ++ UrlJoin.collapse_trailing (UrlJoin.strip_leading path))%string.
Proof.
  intros Hp Hpath Hne Hne'.
  assert (Hpp : UrlJoin.plain_protocol p = false)
    by (unfold UrlJoin.plain_protocol; now rewrite (scheme_plain p Hp)).
  assert (Hfp : UrlJoin.fix_protocol p = p)
    by (unfold UrlJoin.fix_protocol; now rewrite (scheme_plain p Hp)).
  unfold UrlJoin.normalize. rewrite Hpp, Hfp. cbn [UrlJoin.components].
  apply String.eqb_neq in Hne. apply String.eqb_neq in Hne'.
  rewrite Hne, Hne'. cbn [Str.join].
  set (str := (UrlJoin.strip_trailing p ++ "/"
                 ++ UrlJoin.collapse_trailing (UrlJoin.strip_leading path))%string).
  assert (Hs : plain str = true).
  { unfold str. rewrite !plain_app.
    rewrite (plain_strip_trailing p Hp).
    rewrite (plain_collapse_trailing _ (plain_strip_leading path Hpath)).
    reflexivity. }
  rewrite (drop_slash_before_params_plain _ Hs), of_chars_chars.
  apply (params_plain str Hs).
Qed.

(** A plain path contains neither [http://] nor [https://]. *)
Lemma plain_not_includes (path needle : string) :
  plain needle = false -> plain path = true -> Str.includes path needle = false.
Proof.
  intros Hn. induction path as [|c path IH]; intros H.
  - destruct needle; [discriminate Hn | reflexivity].
  - cbn [Str.includes].
    assert (Hr : plain path = true).
    { unfold plain, plain_chars in *. simpl in H.
      apply andb_true_iff in H. apply H. }
    rewrite (IH Hr), orb_false_r.
    destruct (String.prefix needle (String c path)) eqn:E; [|reflexivity].
    apply prefix_app in E. destruct E as [r E].
    rewrite E, plain_app, Hn in H. discriminate.
Qed.

Lemma drop_slashes_head (l : list ascii) :
  match UrlJoin.drop_slashes l with
  | c :: _ => UrlJoin.is_slash c = false
  | [] => True
  end.
Proof.
  induction l as [|c l IH]; simpl; [exact I|].
  destruct (UrlJoin.is_slash c) eqn:E; [exact IH | exact E].
Qed.

(** The two sides of the junction carry no slash of their own. *)
Lemma strip_leading_no_slash (s : string) :
  Str.startsWith (UrlJoin.strip_leading s) "/" = false.
Proof.
  unfold UrlJoin.strip_leading, Str.startsWith.
  pose proof (drop_slashes_head (Str.chars s)) as H.
  destruct (UrlJoin.drop_slashes (Str.chars s)) as [|c r]; [reflexivity|].
  change (Str.of_chars (c :: r)) with (String c (Str.of_chars r)).
  cbn [String.prefix].
  destruct (ascii_dec "/" c) as [<-|]; [discriminate H | reflexivity].
Qed.

Lemma strip_trailing_no_slash (s t : string) :
  UrlJoin.strip_trailing s <> (t ++ "/")%string.
Proof.
  unfold UrlJoin.strip_trailing. intros H.
  apply (f_equal Str.chars) in H. rewrite chars_of_chars, chars_app in H.
  apply (f_equal (@rev ascii)) in H. rewrite rev_involutive, rev_app_distr in H.
  pose proof (drop_slashes_head (rev (Str.chars s))) as G.
  rewrite H in G. discriminate G.
Qed.

(** ** The [Link] header and the resolution of links *)

(** C8, as stated, fails: [for-in] visits the array-index key [1]
    before the key [b] that was created first, so the header of
    [getLinkHeader] is not the one in insertion order. *)
Lemma getLinkHeader_not_in_insertion_order :
  getLinkHeader Sample.urljoin_other (new_IlcSdk None) b_then_1 VUndefined
  = Ok (dependency_link "/one.js" "1" ++ "," ++ dependency_link "/b.js" "b")%string /\
  link_header_in_insertion_order (new_IlcSdk None) b_then_1 None
  = (dependency_link "/b.js" "b" ++ "," ++ dependency_link "/one.js" "1")%string /\
  getLinkHeader Sample.urljoin_other (new_IlcSdk None) b_then_1 VUndefined
  <> Ok (link_header_in_insertion_order (new_IlcSdk None) b_then_1 None).
Proof.
  split; [reflexivity|]. split; [reflexivity|].
  intros H. vm_compute in H. discriminate H.
Qed.

(** C8, amended: when no dependency is named [hasOwnProperty],
    [getLinkHeader] returns, joined by commas, the style sheet entry if
    [cssBundle] is there and not empty, then the script entry if
    [spaBundle] is there and not empty, then one entry per dependency in
    the order of [for-in]: array-index keys first, by ascending number,
    then the other keys in insertion order; when the keys are distinct
    and none is an array index that is the insertion order.  For the script [main.js] with the
    dependency [shared] and the default public path [/] the header is the
    one of the scenario. *)
Theorem getLinkHeader_order
        (urljoin_other : value -> string -> result string) (this : IlcSdk)
        (a : AppAssets) (publicPath : option string) :
  method_visible a ->
  getLinkHeader urljoin_other this a (optional publicPath)
  = Ok (Str.join "," (link_entries this a publicPath)) /\
  (forall deps,
      dependencies a = Some deps ->
      map fst (own_entries deps) = JS.index_keys deps ++ JS.name_keys deps /\
      (exists ns, map JS.arrayIndex (JS.index_keys deps) = map Some ns /\
                  Sorted Z.le ns) /\
      JS.name_keys deps
      = filter (fun k => match JS.arrayIndex k with Some _ => false | None => true end)
               (map fst deps) /\
      (NoDup (map fst deps) ->
       (forall k, In k (map fst deps) -> JS.arrayIndex k = None) ->
       own_entries deps = deps)) /\
  getLinkHeader urljoin_other (new_IlcSdk None) main_and_shared VUndefined
  = Ok ("</main.js>; rel=" ++ Str.quoted "fragment-script"
          ++ "; as=" ++ Str.quoted "script"
          ++ "; crossorigin=" ++ Str.quoted "anonymous"
          ++ ",</shared.js>; rel=" ++ Str.quoted "fragment-dependency"
          ++ "; name=" ++ Str.quoted "shared")%string.
Proof.
  intros Hm. split; [now apply getLinkHeader_entries|].
  split; [|reflexivity].
  intros deps _. split; [|split; [apply index_keys_ascending|split; [reflexivity|]]].
  - change (JS.index_keys deps ++ JS.name_keys deps) with (JS.ownKeys deps).
    unfold own_entries.
    pose proof (ownKeys_In deps) as Hin.
    induction (JS.ownKeys deps) as [|k ks IH]; simpl; [reflexivity|].
    destruct (lookup_In deps k (Hin k (or_introl eq_refl))) as [v ->].
    simpl. f_equal. apply IH. intros x Hx. apply Hin. simpl. auto.
  - apply own_entries_creation_order.
Qed.

Lemma getLinkHeader_order_witness :
  getLinkHeader Sample.urljoin_other (new_IlcSdk (Some "/static/")) b_then_1
                (optional (Some "https://cdn.example/"))
  = Ok (Str.join "," (link_entries (new_IlcSdk (Some "/static/")) b_then_1
                                   (Some "https://cdn.example/"))).
Proof.
  exact (proj1 (getLinkHeader_order Sample.urljoin_other
                  (new_IlcSdk (Some "/static/")) b_then_1
                  (Some "https://cdn.example/") eq_refl)).
Defined.

(** C9, as stated, fails: [assets/http://x.js] is not an absolute URL,
    yet [buildLink] returns it as it is instead of joining it onto the
    public path [/]. *)
Lemma buildLink_not_joined :
  buildLink Sample.urljoin_other (new_IlcSdk None) "assets/http://x.js" VUndefined
  = Ok "assets/http://x.js" /\
  link_url_of_absolute (new_IlcSdk None) "assets/http://x.js" None
  = "/assets/http://x.js" /\
  buildLink Sample.urljoin_other (new_IlcSdk None) "assets/http://x.js" VUndefined
  <> Ok (link_url_of_absolute (new_IlcSdk None) "assets/http://x.js" None).
Proof.
  split; [reflexivity|]. split; [reflexivity|].
  intros H. vm_compute in H. discriminate H.
Qed.

(** C9, amended: [buildLink] returns a path that contains [http://] or
    [https://], an absolute URL among them, as it is, whatever the
    public path; any other path it joins with [url-join] onto the
    [publicPath] argument when that is there and not empty, and onto the
    default public path of the instance otherwise.  When neither the
    public path in force nor the path holds a colon, a question mark, an
    ampersand or a hash, and neither is empty, the join is the public
    path without its trailing slashes, one slash, and the path without
    its leading slashes: no slash is doubled where they meet and no
    segment is lost. *)
Theorem buildLink_resolution
        (urljoin_other : value -> string -> result string) (this : IlcSdk)
        (path : string) (publicPath : option string) :
  (Str.startsWith path "http://" = true \/ Str.startsWith path "https://" = true ->
   forall v, buildLink urljoin_other this path v = Ok path) /\
  (Str.includes path "http://" = true \/ Str.includes path "https://" = true ->
   forall v, buildLink urljoin_other this path v = Ok path) /\
  (Str.includes path "http://" = false -> Str.includes path "https://" = false ->
   buildLink urljoin_other this path (optional publicPath)
   = Ok (UrlJoin.normalize [effective_public_path this publicPath; path])) /\
  effective_public_path this publicPath
  = match publicPath with
    | Some p => if String.eqb p "" then defaultPublicPath this else p
    | None => defaultPublicPath this
    end /\
  (plain (effective_public_path this publicPath) = true -> plain path = true ->
   effective_public_path this publicPath <> "" -> path <> "" ->
   buildLink urljoin_other this path (optional publicPath)
   = Ok (UrlJoin.strip_trailing (effective_public_path this publicPath) ++ "/"
           ++ UrlJoin.collapse_trailing (UrlJoin.strip_leading path))%string /\
   (forall t, UrlJoin.strip_trailing (effective_public_path this publicPath)
              <> (t ++ "/")%string) /\
   Str.startsWith (UrlJoin.strip_leading path) "/" = false).
Proof.
  assert (Hinc : Str.includes path "http://" = true \/
                 Str.includes path "https://" = true ->
                 forall v, buildLink urljoin_other this path v = Ok path).
  { intros H v. unfold buildLink.
    destruct H as [-> | ->]; [reflexivity | now rewrite orb_true_r]. }
  assert (Hjoin : Str.includes path "http://" = false ->
                  Str.includes path "https://" = false ->
                  buildLink urljoin_other this path (optional publicPath)
                  = Ok (UrlJoin.normalize [effective_public_path this publicPath; path])).
  { intros H1 H2. rewrite buildLink_optional. unfold link_url.
    now rewrite H1, H2. }
  split; [|split; [exact Hinc|split; [exact Hjoin|split]]].
  - intros [H|H]; apply Hinc; [left|right]; now apply startsWith_includes.
  - unfold effective_public_path, nonempty.
    destruct publicPath as [p|]; [|reflexivity].
    destruct (String.eqb p ""); reflexivity.
  - intros Hp Hpath Hne Hne'. split; [|split].
    + rewrite Hjoin by (apply plain_not_includes; [reflexivity | exact Hpath]).
      now rewrite urljoin_plain.
    + apply strip_trailing_no_slash.
    + apply strip_leading_no_slash.
Qed.

Lemma buildLink_resolution_witness :
  buildLink Sample.urljoin_other (new_IlcSdk None) "/js/app.js"
            (optional (Some "/static//"))
  = Ok "/static/js/app.js".
Proof.
  exact (proj1 (proj2 (proj2 (proj2 (proj2
           (buildLink_resolution Sample.urljoin_other (new_IlcSdk None)
              "/js/app.js" (Some "/static//")))))
           eq_refl eq_refl
           (fun H => eq_ind "/static//"
                       (fun s => match s with EmptyString => False | _ => True end)
                       I "" H)
           (fun H => eq_ind "/js/app.js"
                       (fun s => match s with EmptyString => False | _ => True end)
                       I "" H))).
Defined.

Lemma buildLink_substring_test_witness :
  buildLink Sample.urljoin_other (new_IlcSdk (Some "/static/"))
            "assets/http://x.js" (VString "https://cdn.example")
  = Ok "assets/http://x.js".
Proof.
  exact (proj1 (buildLink_substring_test Sample.urljoin_other
                  (new_IlcSdk (Some "/static/")) "assets/http://x.js"
                  (VString "https://cdn.example") (or_introl eq_refl))).
Defined.

(** * Further properties of the decoder *)

Lemma has_false_get (name : string) (u : URL.t) :
  URL.has name u = false -> URL.get name u = None.
Proof.
  intros H. destruct (URL.get name u) as [v|] eqn:E; [|reflexivity].
  apply get_has in E. congruence.
Qed.

Lemma getPassedProps_eq (u : URL.t) (log : JS.Log) :
  getPassedProps u log = (Ok (props_of u), log ++ props_warnings u).
Proof.
  unfold getPassedProps, props_of, props_warnings.
  destruct (URL.has "appProps" u) eqn:Hh; simpl.
  - destruct (has_get _ _ Hh) as [raw ->].
    unfold JS.try_catch, JS.lift.
    destruct (JSON.parse (Buffer.base64_to_utf8 raw)); [|reflexivity].
    now rewrite app_nil_r.
  - rewrite (has_false_get _ _ Hh). unfold JS.ret. now rewrite app_nil_r.
Qed.

Lemma prefix_app_self (p r : string) : String.prefix p (p ++ r) = true.
Proof.
  induction p as [|a p IH]; simpl.
  - now destruct r.
  - destruct (ascii_dec a a); [exact IH | contradiction].
Qed.

(** [drop_common] takes the same segments off both paths. *)
Lemma drop_common_split (a b a' b' : list string) :
  Path.drop_common a b = (a', b') ->
  exists c, a = c ++ a' /\ b = c ++ b'.
Proof.
  revert b. induction a as [|x a IH]; intros b H.
  - simpl in H. injection H as <- <-. now exists [].
  - destruct b as [|y b]; simpl in H.
    + injection H as <- <-. now exists [].
    + destruct (String.eqb x y) eqn:E.
      * apply String.eqb_eq in E. subst y.
        destruct (IH b H) as [c [-> ->]]. now exists (x :: c).
      * injection H as <- <-. now exists [].
Qed.

Lemma drop_common_prefix (a rest : list string) :
  Path.drop_common a (a ++ rest) = ([], rest).
Proof.
  induction a as [|x a IH]; simpl.
  - now destruct rest.
  - now rewrite String.eqb_refl.
Qed.

Lemma join_starts_with_head (sep x : string) (l : list string) :
  Str.startsWith (Str.join sep (x :: l)) x = true.
Proof.
  unfold Str.startsWith. destruct l; simpl.
  - rewrite <- (append_empty_r x) at 2. apply prefix_app_self.
  - apply prefix_app_self.
Qed.

Section DecoderOutcomes.

Variable newURL : string -> string -> result URL.t.
Variable cwd : string.

(** What [getRequestUrls] makes of a parsed [routerProps]: the two
    strings give the result, anything else a [TypeError]. *)
Lemma routerProps_shape (v : value) :
  (exists basePath reqUrl,
      JS.getProp v "basePath" = Ok (VString basePath) /\
      JS.getProp v "reqUrl" = Ok (VString reqUrl) /\
      JS.rbind (JS.getProp v "basePath") (fun b =>
      JS.rbind (JS.getProp v "reqUrl") (fun q =>
      JS.rbind (Path.relative cwd b q) (fun rel =>
      Ok {| basePageUrl := b; requestUrl := "/" ++ rel |})))
      = Ok {| basePageUrl := VString basePath;
              requestUrl := "/" ++ Path.relative_strings cwd basePath reqUrl |})
  \/
  (~ (exists basePath reqUrl,
         JS.getProp v "basePath" = Ok (VString basePath) /\
         JS.getProp v "reqUrl" = Ok (VString reqUrl)) /\
   JS.rbind (JS.getProp v "basePath") (fun b =>
   JS.rbind (JS.getProp v "reqUrl") (fun q =>
   JS.rbind (Path.relative cwd b q) (fun rel =>
   Ok {| basePageUrl := b; requestUrl := "/" ++ rel |})))
   = Throw TypeError).
Proof.
  destruct (JS.getProp v "basePath") as [b|eb] eqn:Hb.
  - destruct (JS.getProp v "reqUrl") as [q|eq] eqn:Hq.
    + destruct b; try (right; split; [intros [b' [q' [? ?]]]; discriminate | reflexivity]).
      destruct q; try (right; split; [intros [b' [q' [? ?]]]; discriminate | reflexivity]).
      left. eauto.
    + destruct v; simpl in Hb, Hq; discriminate.
  - right. split; [intros [b' [q' [? ?]]]; discriminate|].
    destruct v; simpl in Hb; try discriminate; now injection Hb as <-.
Qed.

(** X1: [processRequest] throws [e] exactly when the URL of the request
    does not parse (with [e] the error of [new URL]), or [routerProps] is
    there and either its decoding is not JSON (with [e] the error of
    [JSON.parse]) or the parsed value has no string [basePath] and
    string [reqUrl] (with [e] a [TypeError]).  A call that throws has
    logged nothing. *)
Theorem processRequest_throws_iff
        (req : IncomingMessage) (e : exn) (log log' : JS.Log) :
  processRequest newURL cwd req log = (Throw e, log') <->
  log' = log /\
  (parseUrl newURL req = Throw e \/
   exists u raw,
     parseUrl newURL req = Ok u /\
     URL.get "routerProps" u = Some raw /\
     (JSON.parse (Buffer.base64_to_utf8 raw) = Throw e \/
      exists v,
        JSON.parse (Buffer.base64_to_utf8 raw) = Ok v /\
        e = TypeError /\
        ~ (exists basePath reqUrl,
              JS.getProp v "basePath" = Ok (VString basePath) /\
              JS.getProp v "reqUrl" = Ok (VString reqUrl)))).
Proof.
  split.
  - intros H. unfold processRequest, JS.bind, JS.lift in H.
    destruct (parseUrl newURL req) as [u|e0] eqn:Hp.
    + destruct (getRequestUrls cwd u log) as [[urls|e1] log1] eqn:Hu.
      * rewrite getPassedProps_eq in H. discriminate.
      * injection H as <- <-.
        destruct (URL.has "routerProps" u) eqn:Hh.
        -- destruct (has_get _ _ Hh) as [raw Hg].
           destruct (JSON.parse (Buffer.base64_to_utf8 raw)) as [v|e2] eqn:Hj.
           ++ rewrite (getRequestUrls_parsed cwd u raw v log Hg Hj) in Hu.
              destruct (routerProps_shape v) as [[b [q [_ [_ Hc]]]] | [Hn Hc]];
                rewrite Hc in Hu; [discriminate|].
              injection Hu as <- <-. split; [reflexivity|].
              right. exists u, raw. split; [reflexivity|]. split; [exact Hg|].
              right. exists v. auto.
           ++ rewrite (getRequestUrls_malformed cwd u raw e2 log Hg Hj) in Hu.
              injection Hu as <- <-. split; [reflexivity|].
              right. exists u, raw. auto.
        -- rewrite (getRequestUrls_missing cwd u log Hh) in Hu. discriminate.
    + injection H as <- <-. auto.
  - intros [-> [Hp | [u [raw [Hp [Hg [Hj | [v [Hj [-> Hn]]]]]]]]]];
      unfold processRequest, JS.bind, JS.lift; rewrite Hp.
    + reflexivity.
    + now rewrite (getRequestUrls_malformed cwd u raw e log Hg Hj).
    + rewrite (getRequestUrls_parsed cwd u raw v log Hg Hj).
      destruct (routerProps_shape v) as [[b [q [Hb [Hq _]]]] | [_ Hc]].
      * exfalso. apply Hn. eauto.
      * now rewrite Hc.
Qed.

(** X2: the path props that [processRequest] returns depend on the
    first [appProps] parameter alone: the empty object when there is
    none, the parsed value when its decoding is JSON, of whatever shape
    (an array, a number, [null]), and the empty object when it is not. *)
Theorem pathProps_follow_appProps
        (req : IncomingMessage) (r : RequestData) (log log' : JS.Log) :
  processRequest newURL cwd req log = (Ok r, log') ->
  exists u,
    parseUrl newURL req = Ok u /\
    getCurrentPathProps r
    = match URL.get "appProps" u with
      | Some raw =>
          match JSON.parse (Buffer.base64_to_utf8 raw) with
          | Ok v => v
          | Throw _ => VObject []
          end
      | None => VObject []
      end.
Proof.
  unfold processRequest, JS.bind, JS.lift. intros H.
  destruct (parseUrl newURL req) as [u|] eqn:Hp; [|discriminate].
  destruct (getRequestUrls cwd u log) as [[urls|] log1]; [|discriminate].
  rewrite getPassedProps_eq in H. injection H as <- _.
  exists u. split; reflexivity.
Qed.

(** X3: a call of [processRequest] that returns has added to the log,
    after what was there, the warning of a missing [routerProps] if it
    is missing, then the warning of a failed [appProps] parse if it
    failed, and nothing else: at most two warnings, none when
    [routerProps] is there and [appProps] is absent or JSON. *)
Theorem processRequest_log
        (req : IncomingMessage) (r : RequestData) (log log' : JS.Log) :
  processRequest newURL cwd req log = (Ok r, log') ->
  exists u,
    parseUrl newURL req = Ok u /\
    log' = log
           ++ (if URL.has "routerProps" u then []
               else [Warning (missing_routerProps u) None])
           ++ match URL.get "appProps" u with
              | Some raw =>
                  match JSON.parse (Buffer.base64_to_utf8 raw) with
                  | Throw e => [Warning parsing_failed (Some e)]
                  | Ok _ => []
                  end
              | None => []
              end.
Proof.
  unfold processRequest, JS.bind, JS.lift. intros H.
  destruct (parseUrl newURL req) as [u|] eqn:Hp; [|discriminate].
  destruct (getRequestUrls cwd u log) as [[urls|] log1] eqn:Hu; [|discriminate].
  rewrite getPassedProps_eq in H. injection H as _ <-.
  exists u. split; [reflexivity|].
  destruct (getRequestUrls_inv cwd u urls log log1 Hu)
    as [[Hh [_ ->]] | [Hh [raw [v [b [q [_ [_ [_ [_ [_ ->]]]]]]]]]]];
    rewrite Hh; [now rewrite <- app_assoc | reflexivity].
Qed.

(** X4: whenever [processRequest] returns, the base path it returns is
    a string: [/] when [routerProps] is missing, else the [basePath] of
    the decoded [routerProps]. *)
Theorem currentBasePath_is_string
        (req : IncomingMessage) (r : RequestData) (log log' : JS.Log) :
  processRequest newURL cwd req log = (Ok r, log') ->
  exists u basePath,
    parseUrl newURL req = Ok u /\
    getCurrentBasePath r = VString basePath /\
    (URL.has "routerProps" u = false -> basePath = "/") /\
    (forall raw v,
        URL.get "routerProps" u = Some raw ->
        JSON.parse (Buffer.base64_to_utf8 raw) = Ok v ->
        JS.getProp v "basePath" = Ok (VString basePath)).
Proof.
  intros H.
  destruct (processRequest_inv newURL cwd req r log log' H)
    as [u [urls [log1 [Hp [Hu [_ Hb]]]]]].
  destruct (getRequestUrls_inv cwd u urls log log1 Hu)
    as [[Hh [-> _]] | [Hh [raw [v [b [q [Hg [Hj [Hvb [_ [-> _]]]]]]]]]]];
    simpl in Hb.
  - exists u, "/". repeat split; auto.
    intros raw v Hg. apply get_has in Hg. congruence.
  - exists u, b. repeat split; auto; try congruence.
Qed.

(** X5: for a [routerProps] with string [basePath] and [reqUrl] that
    differ, the request URL is a slash and the segments of [reqUrl]
    below [basePath] when the resolved [reqUrl] lies under the resolved
    [basePath]; when it does not, the request URL begins with [/..]:
    the decoder returns a path that climbs out of the base path.  It
    does not throw, and it logs nothing about [routerProps]: the only
    warning it can add to the log is that of a failed [appProps]
    parse. *)
Theorem requestUrl_under_or_outside_basePath
        (req : IncomingMessage) (u : URL.t) (raw : string) (v : value)
        (basePath reqUrl : string) (log : JS.Log) :
  parseUrl newURL req = Ok u ->
  URL.get "routerProps" u = Some raw ->
  JSON.parse (Buffer.base64_to_utf8 raw) = Ok v ->
  JS.getProp v "basePath" = Ok (VString basePath) ->
  JS.getProp v "reqUrl" = Ok (VString reqUrl) ->
  basePath <> reqUrl ->
  exists url,
    processRequest newURL cwd req log
    = (Ok {| getCurrentReqUrl := url;
             getCurrentBasePath := VString basePath;
             getCurrentPathProps := props_of u |},
       log ++ props_warnings u) /\
    (forall below,
        Path.resolve cwd reqUrl = Path.resolve cwd basePath ++ below ->
        url = ("/" ++ Str.join "/" below)%string) /\
    ((forall below,
         Path.resolve cwd reqUrl <> Path.resolve cwd basePath ++ below) ->
     Str.startsWith url "/.." = true) /\
    (props_warnings u = [] \/
     exists e, props_warnings u = [Warning parsing_failed (Some e)]).
Proof.
  intros Hp Hg Hj Hb Hq Hne.
  exists ("/" ++ Path.relative_strings cwd basePath reqUrl)%string.
  split; [|split; [|split]];
    [ | | | unfold props_warnings;
            destruct (URL.get "appProps" u) as [raw'|]; [|now left];
            destruct (JSON.parse (Buffer.base64_to_utf8 raw')); [now left|eauto] ].
  - unfold processRequest, JS.bind, JS.lift.
    rewrite Hp, (getRequestUrls_parsed cwd u raw v log Hg Hj), Hb, Hq.
    simpl. now rewrite getPassedProps_eq.
  - intros below Hbelow. unfold Path.relative_strings.
    apply String.eqb_neq in Hne. rewrite Hne, Hbelow, drop_common_prefix.
    reflexivity.
  - intros Hout. unfold Path.relative_strings.
    apply String.eqb_neq in Hne. rewrite Hne.
    destruct (Path.drop_common (Path.resolve cwd basePath) (Path.resolve cwd reqUrl))
      as [f t] eqn:E.
    destruct (drop_common_split _ _ _ _ E) as [c [Hf Ht]].
    destruct f as [|x f].
    + exfalso. apply (Hout t). rewrite app_nil_r in Hf. congruence.
    + cbn [map app].
      pose proof (join_starts_with_head "/" ".." (map (fun _ => "..") f ++ t)) as J.
      unfold Str.startsWith in *.
      apply prefix_app in J. destruct J as [rest ->]. now destruct rest.
Qed.

End DecoderOutcomes.
(** * Base64: decoding what was encoded *)

Lemma In_all_bytes (a : ascii) : In a all_bytes.
Proof.
  unfold all_bytes. rewrite <- (ascii_nat_embedding a).
  apply in_map, in_seq. pose proof (nat_ascii_bounded a). lia.
Qed.

Lemma In_all_sextets (n : N) : (n < 64)%N -> In n all_sextets.
Proof.
  intros H. unfold all_sextets. rewrite <- (N2Nat.id n).
  apply in_map, in_seq. lia.
Qed.

Lemma for_all_bytes (P : ascii -> bool) :
  forallb P all_bytes = true -> forall a, P a = true.
Proof.
  intros H a. rewrite forallb_forall in H. apply H, In_all_bytes.
Qed.

Lemma for_all_byte_pairs (P : ascii -> ascii -> bool) :
  forallb (fun a => forallb (P a) all_bytes) all_bytes = true ->
  forall a b, P a b = true.
Proof.
  intros H a b. apply for_all_bytes. now apply (for_all_bytes _ H a).
Qed.

Lemma unbase64_enc (n : N) :
  (n < 64)%N -> Base64.unbase64 (Base64.enc n) = Some n.
Proof.
  intros H. apply In_all_sextets in H.
  assert (G : forallb (fun n => match Base64.unbase64 (Base64.enc n) with
                                | Some m => N.eqb m n
                                | None => false
                                end) all_sextets = true)
    by (vm_compute; reflexivity).
  rewrite forallb_forall in G. specialize (G n H).
  destruct (Base64.unbase64 (Base64.enc n)); [|discriminate].
  apply N.eqb_eq in G. now subst.
Qed.

(** What one byte decides. *)
Lemma sextets_of_one (a : ascii) :
  (sextet1 a < 64)%N /\ (sextet4 a < 64)%N /\
  (N.shiftl (N.land (N_of_ascii a) 3) 4 < 64)%N /\
  (N.shiftl (N.land (N_of_ascii a) 15) 2 < 64)%N /\
  Base64.byte1 (sextet1 a) (N.shiftl (N.land (N_of_ascii a) 3) 4) = a /\
  N.shiftr (N.land (N.shiftl (N.land (N_of_ascii a) 15) 2) 60) 2
  = N.land (N_of_ascii a) 15 /\
  ascii_of_N (N.lor (N.shiftl (N.shiftr (N_of_ascii a) 4) 4)
                    (N.land (N_of_ascii a) 15)) = a.
Proof.
  pose (P := fun a =>
    (sextet1 a <? 64)%N && (sextet4 a <? 64)%N
    && (N.shiftl (N.land (N_of_ascii a) 3) 4 <? 64)%N
    && (N.shiftl (N.land (N_of_ascii a) 15) 2 <? 64)%N
    && Ascii.eqb (Base64.byte1 (sextet1 a) (N.shiftl (N.land (N_of_ascii a) 3) 4)) a
    && (N.shiftr (N.land (N.shiftl (N.land (N_of_ascii a) 15) 2) 60) 2
        =? N.land (N_of_ascii a) 15)%N
    && Ascii.eqb (ascii_of_N (N.lor (N.shiftl (N.shiftr (N_of_ascii a) 4) 4)
                                    (N.land (N_of_ascii a) 15))) a).
  assert (G : forallb P all_bytes = true) by (vm_compute; reflexivity).
  pose proof (for_all_bytes P G a) as H. unfold P in H.
  repeat (apply andb_true_iff in H; destruct H as [H ?]).
  repeat match goal with
         | E : (_ <? _)%N = true |- _ => apply N.ltb_lt in E
         | E : (_ =? _)%N = true |- _ => apply N.eqb_eq in E
         | E : Ascii.eqb _ _ = true |- _ => apply Ascii.eqb_eq in E
         end.
  repeat split; assumption.
Qed.

(** What two neighbouring bytes decide. *)
Lemma sextets_of_two (a b : ascii) :
  (sextet2 a b < 64)%N /\ (sextet3 a b < 64)%N /\
  Base64.byte1 (sextet1 a) (sextet2 a b) = a /\
  Base64.byte3 (sextet3 a b) (sextet4 b) = b /\
  N.land (sextet2 a b) 15 = N.shiftr (N_of_ascii b) 4 /\
  N.shiftr (N.land (sextet3 a b) 60) 2 = N.land (N_of_ascii a) 15.
Proof.
  pose (P := fun a b =>
    (sextet2 a b <? 64)%N && (sextet3 a b <? 64)%N
    && Ascii.eqb (Base64.byte1 (sextet1 a) (sextet2 a b)) a
    && Ascii.eqb (Base64.byte3 (sextet3 a b) (sextet4 b)) b
    && (N.land (sextet2 a b) 15 =? N.shiftr (N_of_ascii b) 4)%N
    && (N.shiftr (N.land (sextet3 a b) 60) 2 =? N.land (N_of_ascii a) 15)%N).
  assert (G : forallb (fun a => forallb (P a) all_bytes) all_bytes = true)
    by (vm_compute; reflexivity).
  pose proof (for_all_byte_pairs P G a b) as H. unfold P in H.
  repeat (apply andb_true_iff in H; destruct H as [H ?]).
  repeat match goal with
         | E : (_ <? _)%N = true |- _ => apply N.ltb_lt in E
         | E : (_ =? _)%N = true |- _ => apply N.eqb_eq in E
         | E : Ascii.eqb _ _ = true |- _ => apply Ascii.eqb_eq in E
         end.
  repeat split; assumption.
Qed.

Lemma byte2_of_sextets (a b c : ascii) :
  Base64.byte2 (sextet2 a b) (sextet3 b c) = b.
Proof.
  unfold Base64.byte2.
  destruct (sextets_of_two a b) as [_ [_ [_ [_ [-> _]]]]].
  destruct (sextets_of_two b c) as [_ [_ [_ [_ [_ ->]]]]].
  apply (sextets_of_one b).
Qed.

Lemma byte2_of_last (a b : ascii) :
  Base64.byte2 (sextet2 a b) (N.shiftl (N.land (N_of_ascii b) 15) 2) = b.
Proof.
  unfold Base64.byte2.
  destruct (sextets_of_two a b) as [_ [_ [_ [_ [-> _]]]]].
  destruct (sextets_of_one b) as [_ [_ [_ [_ [_ [-> H]]]]]]. exact H.
Qed.

Lemma sextets_enc (n : N) (l : list ascii) :
  (n < 64)%N -> Base64.sextets (Base64.enc n :: l) = n :: Base64.sextets l.
Proof. intros H. cbn [Base64.sextets]. now rewrite (unbase64_enc n H). Qed.

(** Lists, three elements at a time. *)
Lemma list_ind3 {A} (P : list A -> Prop) :
  P [] -> (forall a, P [a]) -> (forall a b, P [a; b]) ->
  (forall a b c r, P r -> P (a :: b :: c :: r)) ->
  forall l, P l.
Proof.
  intros H0 H1 H2 H3.
  assert (G : forall n l, (length l <= n)%nat -> P l).
  { induction n as [|n IH]; intros l Hl.
    - destruct l; [exact H0 | simpl in Hl; lia].
    - destruct l as [|a [|b [|c r]]]; auto.
      apply H3, IH. simpl in Hl. lia. }
  intros l. exact (G (length l) l (le_n _)).
Qed.

Lemma pack_sextets_encode (bytes : list ascii) :
  Base64.pack (Base64.sextets (Base64.encode_bytes bytes)) = bytes.
Proof.
  induction bytes as [|a|a b|a b c r IH] using list_ind3.
  - reflexivity.
  - cbn [Base64.encode_bytes].
    destruct (sextets_of_one a) as [H1 [_ [H2 [_ [Hb _]]]]].
    fold (sextet1 a).
    rewrite (sextets_enc _ _ H1), (sextets_enc _ _ H2).
    simpl Base64.sextets. cbn [Base64.pack]. now rewrite Hb.
  - cbn [Base64.encode_bytes].
    destruct (sextets_of_one a) as [H1 _].
    destruct (sextets_of_one b) as [_ [_ [_ [H3 _]]]].
    destruct (sextets_of_two a b) as [H2 [_ [Hb1 _]]].
    fold (sextet1 a). fold (sextet2 a b).
    rewrite (sextets_enc _ _ H1), (sextets_enc _ _ H2), (sextets_enc _ _ H3).
    simpl Base64.sextets. cbn [Base64.pack].
    now rewrite Hb1, byte2_of_last.
  - cbn [Base64.encode_bytes].
    destruct (sextets_of_one a) as [H1 _].
    destruct (sextets_of_one c) as [_ [H4 _]].
    destruct (sextets_of_two a b) as [H2 [_ [Hb1 _]]].
    destruct (sextets_of_two b c) as [_ [H3 [_ [Hb3 _]]]].
    fold (sextet1 a). fold (sextet2 a b). fold (sextet3 b c). fold (sextet4 c).
    rewrite (sextets_enc _ _ H1), (sextets_enc _ _ H2),
      (sextets_enc _ _ H3), (sextets_enc _ _ H4).
    cbn [Base64.pack]. now rewrite Hb1, byte2_of_sextets, Hb3, IH.
Qed.

(** X6: decoding, as [Buffer.from(.., 'base64')] does, what
    [toString('base64')] wrote gives back the bytes, whatever they are
    and however many: the padding stops the decoder and no byte is lost
    or added.  The encoding has four characters for every three bytes,
    the last group padded. *)
Theorem base64_decode_encode (bytes : list ascii) :
  Base64.decode_bytes (Base64.encode_bytes bytes) = bytes /\
  length (Base64.encode_bytes bytes) = (4 * ((length bytes + 2) / 3))%nat.
Proof.
  split; [apply pack_sextets_encode|].
  induction bytes as [|a|a b|a b c r IH] using list_ind3; try reflexivity.
  cbn [Base64.encode_bytes length]. rewrite IH.
  replace (S (S (S (length r))) + 2)%nat with (length r + 2 + 1 * 3)%nat by lia.
  rewrite Nat.div_add by lia. lia.
Qed.

(** ** Base64 in a header *)

Lemma get_beyond (s : string) (k : nat) :
  (String.length s <= k)%nat -> String.get k s = None.
Proof.
  revert k. induction s as [|c s IH]; intros k H; [now destruct k|].
  destruct k as [|k]; simpl in *; [lia|]. apply IH. lia.
Qed.

Lemma enc_printable (n : N) : Http.printable (Base64.enc n) = true.
Proof.
  destruct (N.ltb_spec n 64) as [H|H].
  - apply In_all_sextets in H.
    assert (G : forallb (fun n => Http.printable (Base64.enc n)) all_sextets = true)
      by (vm_compute; reflexivity).
    rewrite forallb_forall in G. now apply G.
  - unfold Base64.enc. rewrite get_beyond; [reflexivity|].
    change (String.length Base64.alphabet) with 64%nat. lia.
Qed.

Lemma header_value_ok_printable (c : ascii) (r : list ascii) :
  Http.printable c = true ->
  Http.header_value_ok_go (c :: r) = Http.header_value_ok_go r.
Proof. intros H. cbn [Http.header_value_ok_go]. now rewrite H. Qed.

(** What [toString('base64')] writes passes the check of [setHeader]. *)
Lemma base64_header_ok (s : string) :
  Http.header_value_ok (Buffer.utf8_to_base64 s) = true.
Proof.
  unfold Http.header_value_ok, Buffer.utf8_to_base64. rewrite chars_of_chars.
  induction (Utf8.encode s) as [|a|a b|a b c r IH] using list_ind3;
    cbn [Base64.encode_bytes];
    rewrite ?header_value_ok_printable by (apply enc_printable || reflexivity);
    [reflexivity | reflexivity | reflexivity | exact IH].
Qed.

(** * Further properties of the encoder *)

(** ** The dependencies, each once *)

Lemma insert_sorted_perm (n : Z) (k : string) (l : list (Z * string)) :
  Permutation (JS.insert_sorted n k l) ((n, k) :: l).
Proof.
  induction l as [|[m k'] l IH]; simpl; [reflexivity|].
  destruct (n <? m)%Z; [reflexivity|].
  rewrite IH. apply perm_swap.
Qed.

Lemma index_keys_perm {A} (o : JS.obj A) :
  Permutation (JS.index_keys o) (filter is_index_key (map fst o)).
Proof.
  unfold JS.index_keys, JS.index_pairs.
  assert (G : forall acc,
             Permutation
               (map snd
                  (fold_left
                     (fun acc (kv : string * A) =>
                        match JS.arrayIndex (fst kv) with
                        | Some n => JS.insert_sorted n (fst kv) acc
                        | None => acc
                        end) o acc))
               (map snd acc ++ filter is_index_key (map fst o))).
  { induction o as [|[k v] o IH]; intros acc; simpl.
    - now rewrite app_nil_r.
    - rewrite IH. unfold is_index_key at 2.
      destruct (JS.arrayIndex k) as [n|]; [|reflexivity].
      rewrite (Permutation_map snd (insert_sorted_perm n k acc)). simpl.
      apply Permutation_middle. }
  exact (G []).
Qed.

Lemma filter_split_perm {A} (p : A -> bool) (l : list A) :
  Permutation (filter p l ++ filter (fun x => negb (p x)) l) l.
Proof.
  induction l as [|x l IH]; simpl; [reflexivity|].
  destruct (p x); simpl.
  - now constructor.
  - rewrite <- Permutation_middle. now constructor.
Qed.

(** [for-in] visits every own key, once for each time it is there. *)
Lemma ownKeys_perm {A} (o : JS.obj A) :
  Permutation (JS.ownKeys o) (map fst o).
Proof.
  unfold JS.ownKeys, JS.name_keys. rewrite index_keys_perm.
  rewrite <- (filter_split_perm is_index_key (map fst o)) at 3.
  apply Permutation_app_head.
  erewrite filter_ext; [reflexivity|].
  intros k. unfold is_index_key. now destruct (JS.arrayIndex k).
Qed.

Lemma entries_of_keys {A} (o : JS.obj A) :
  NoDup (map fst o) ->
  flat_map (fun k => match JS.lookup k o with
                     | Some v => [(k, v)]
                     | None => []
                     end) (map fst o) = o.
Proof.
  induction o as [|[k v] o IH]; simpl; [reflexivity|].
  intros Hnd. rewrite String.eqb_refl. simpl. f_equal.
  inversion Hnd as [|? ? Hnotin Hnd']; subst.
  rewrite <- (IH Hnd') at 2.
  apply flat_map_ext_in_keys.
  intros k' Hk'. destruct (String.eqb k k') eqn:E; auto.
  apply String.eqb_eq in E. subst. contradiction.
Qed.

Lemma own_entries_perm {A} (o : JS.obj A) :
  NoDup (map fst o) -> Permutation (own_entries o) o.
Proof.
  intros Hnd. unfold own_entries.
  rewrite (Permutation_flat_map _ (ownKeys_perm o)).
  now rewrite entries_of_keys.
Qed.

Lemma ownKeys_of_shadowing {A} (o : JS.obj A) :
  JS.hasOwn "hasOwnProperty" o = true ->
  exists k rest, JS.ownKeys o = k :: rest.
Proof.
  intros H.
  assert (Hin : In "hasOwnProperty" (JS.ownKeys o)).
  { apply (Permutation_in _ (Permutation_sym (ownKeys_perm o))).
    unfold JS.hasOwn in H. clear -H.
    induction o as [|[k v] o IH]; simpl in *; [discriminate|].
    destruct (String.eqb k "hasOwnProperty") eqn:E.
    - left. now apply String.eqb_eq.
    - right. now apply IH. }
  destruct (JS.ownKeys o) as [|k rest]; [destruct Hin|eauto].
Qed.



Lemma utf8_encode_ascii (l : list ascii) :
  forallb (fun c => (N_of_ascii c <? 128)%N) l = true -> Utf8.encode_go l = l.
Proof.
  induction l as [|a l IH]; [reflexivity|].
  intros H. simpl in H. apply andb_true_iff in H. destruct H as [Ha Hl].
  cbn [Utf8.encode_go]. rewrite (IH Hl).
  assert (E : (N_of_ascii a =? 237)%N = false).
  { apply N.ltb_lt in Ha. apply N.eqb_neq. lia. }
  destruct l as [|b [|c r]]; try reflexivity.
  now rewrite E.
Qed.

Lemma utf8_decode_ascii (l : list ascii) :
  forallb (fun c => (N_of_ascii c <? 128)%N) l = true -> Utf8.decode_go None l = l.
Proof.
  induction l as [|a l IH]; [reflexivity|].
  intros H. simpl in H. apply andb_true_iff in H. destruct H as [Ha Hl].
  cbn [Utf8.decode_go]. unfold Utf8.classify.
  assert (E : (N_of_ascii a <=? 127)%N = true).
  { apply N.ltb_lt in Ha. apply N.leb_le. lia. }
  now rewrite E, (IH Hl).
Qed.

(** A text that went through [new Buffer(text).toString('base64')]
    comes back from [Buffer.from(.., 'base64').toString('utf-8')] as
    the UTF-8 decoding of its own bytes; an ASCII text comes back as it
    was. *)
Lemma buffer_round_trip (text : string) :
  Buffer.base64_to_utf8 (Buffer.utf8_to_base64 text)
  = Utf8.decode (Utf8.encode text).
Proof.
  unfold Buffer.base64_to_utf8, Buffer.utf8_to_base64, Base64.decode_bytes.
  now rewrite chars_of_chars, pack_sextets_encode.
Qed.

Lemma buffer_round_trip_ascii (text : string) :
  is_ascii text = true ->
  Buffer.base64_to_utf8 (Buffer.utf8_to_base64 text) = text.
Proof.
  intros H. rewrite buffer_round_trip.
  unfold Utf8.decode, Utf8.encode, is_ascii in *.
  rewrite (utf8_encode_ascii _ H), (utf8_decode_ascii _ H).
  apply of_chars_chars.
Qed.

Lemma lookup_set_if_same {A} (k : string) (v : option A) (o : JS.obj A) :
  JS.lookup k (set_if k v o)
  = match v with Some x => Some x | None => JS.lookup k o end.
Proof. destruct v; simpl; [apply lookup_set_same | reflexivity]. Qed.

Lemma lookup_set_if_other {A} (k k' : string) (v : option A) (o : JS.obj A) :
  k <> k' -> JS.lookup k' (set_if k v o) = JS.lookup k' o.
Proof. intros H. destruct v; simpl; [now apply lookup_set_other | reflexivity]. Qed.

Section EncoderOutcomes.

Variable urljoin_other : value -> string -> result string.
Variable this : IlcSdk.

(** The outcome of [processResponse], branch by branch: the title and
    the meta tags, being base64, are always written; the [Link] value is
    written when it passes the check of [setHeader]. *)
Lemma processResponse_outcome (reqData : RequestData) (data : ResponseData)
      (res : ServerResponse) :
  processResponse urljoin_other this reqData data res
  = match appAssets data with
    | None => (Ok tt, Http.Response (head_headers data res))
    | Some a =>
        match JS.rbind (JS.getProp (getCurrentPathProps reqData) "publicPath")
                       (getLinkHeader urljoin_other this a) with
        | Ok link =>
            if Http.header_value_ok link
            then (Ok tt, Http.Response (JS.set "link" link (head_headers data res)))
            else (Throw TypeError, Http.Response (head_headers data res))
        | Throw e => (Throw e, Http.Response (head_headers data res))
        end
    end.
Proof.
  destruct res as [hs].
  unfold processResponse, head_headers, title_header, meta_header,
    Http.setHeader, JS.bind, JS.lift, JS.ret.
  destruct (nonempty (pageTitle data)) as [t|];
    destruct (nonempty (pageMetaTags data)) as [m|];
    rewrite ?base64_header_ok; cbn [set_if Http.headers];
    rewrite ?base64_header_ok;
    (destruct (appAssets data) as [a|]; [|reflexivity]);
    (destruct (JS.getProp (getCurrentPathProps reqData) "publicPath") as [p|];
     cbn [JS.rbind]; [|reflexivity]);
    (destruct (getLinkHeader urljoin_other this a p) as [link|]; [|reflexivity]);
    destruct (Http.header_value_ok link); reflexivity.
Qed.

(** X7: after [processResponse], in whichever way it ends, a title that
    is not empty is in [x-head-title] as base64 that decodes to the
    bytes of the title between [<title>] and [</title>], and meta tags
    that are not empty are in [x-head-meta] as base64 that decodes to
    their bytes. *)
Theorem head_headers_decode
        (reqData : RequestData) (data : ResponseData)
        (res res' : ServerResponse) (r : result unit) :
  processResponse urljoin_other this reqData data res = (r, res') ->
  (forall t, nonempty (pageTitle data) = Some t ->
     exists h, Http.getHeader "x-head-title" res' = Some h /\
               Base64.decode_bytes (Str.chars h)
               = Utf8.encode ("<title>" ++ t ++ "</title>")) /\
  (forall m, nonempty (pageMetaTags data) = Some m ->
     exists h, Http.getHeader "x-head-meta" res' = Some h /\
               Base64.decode_bytes (Str.chars h) = Utf8.encode m).
Proof.
  intros H. rewrite processResponse_outcome in H.
  assert (Ht : forall t, nonempty (pageTitle data) = Some t ->
                 JS.lookup "x-head-title" (head_headers data res)
                 = Some (Buffer.utf8_to_base64 ("<title>" ++ t ++ "</title>"))).
  { intros t E. unfold head_headers, title_header.
    rewrite lookup_set_if_other by discriminate.
    now rewrite lookup_set_if_same, E. }
  assert (Hm : forall m, nonempty (pageMetaTags data) = Some m ->
                 JS.lookup "x-head-meta" (head_headers data res)
                 = Some (Buffer.utf8_to_base64 m)).
  { intros m E. unfold head_headers, meta_header.
    now rewrite lookup_set_if_same, E. }
  assert (Hres : forall k, k = "x-head-title" \/ k = "x-head-meta" ->
                   JS.lookup k (Http.headers res')
                   = JS.lookup k (head_headers data res)).
  { intros k Hk.
    destruct (appAssets data) as [a|]; [|now injection H as _ <-].
    destruct (JS.rbind _ _) as [link|e]; [|now injection H as _ <-].
    destruct (Http.header_value_ok link); injection H as _ <-; [|reflexivity].
    simpl. apply lookup_set_other. destruct Hk as [-> | ->]; discriminate. }
  split.
  - intros t E.
    exists (Buffer.utf8_to_base64 ("<title>" ++ t ++ "</title>")). split.
    + unfold Http.getHeader.
      change (Http.toLowerCase "x-head-title") with "x-head-title".
      rewrite Hres by auto. exact (Ht t E).
    + unfold Buffer.utf8_to_base64, Base64.decode_bytes.
      now rewrite chars_of_chars, pack_sextets_encode.
  - intros m E. exists (Buffer.utf8_to_base64 m). split.
    + unfold Http.getHeader.
      change (Http.toLowerCase "x-head-meta") with "x-head-meta".
      rewrite Hres by auto. exact (Hm m E).
    + unfold Buffer.utf8_to_base64, Base64.decode_bytes.
      now rewrite chars_of_chars, pack_sextets_encode.
Qed.

(** X8: [processResponse], in whichever way it ends, leaves every
    header other than [x-head-title], [x-head-meta] and [Link] as it
    was; it leaves [x-head-title] as it was when the title is absent or
    empty, [x-head-meta] when the meta tags are absent or empty, and
    [Link] when there are no assets or when it throws. *)
Theorem processResponse_writes_only
        (reqData : RequestData) (data : ResponseData)
        (res res' : ServerResponse) (r : result unit) :
  processResponse urljoin_other this reqData data res = (r, res') ->
  (forall name,
      Http.toLowerCase name <> "x-head-title" ->
      Http.toLowerCase name <> "x-head-meta" ->
      Http.toLowerCase name <> "link" ->
      Http.getHeader name res' = Http.getHeader name res) /\
  (nonempty (pageTitle data) = None ->
   Http.getHeader "x-head-title" res' = Http.getHeader "x-head-title" res) /\
  (nonempty (pageMetaTags data) = None ->
   Http.getHeader "x-head-meta" res' = Http.getHeader "x-head-meta" res) /\
  (appAssets data = None \/ r <> Ok tt ->
   Http.getHeader "Link" res' = Http.getHeader "Link" res).
Proof.
  intros H. rewrite processResponse_outcome in H.
  assert (Hhead : forall k,
             (k = "x-head-title" -> nonempty (pageTitle data) = None) ->
             (k = "x-head-meta" -> nonempty (pageMetaTags data) = None) ->
             JS.lookup k (head_headers data res) = JS.lookup k (Http.headers res)).
  { intros k Ht Hm. unfold head_headers, title_header, meta_header.
    destruct (String.eqb_spec "x-head-meta" k) as [<-|Nm].
    - rewrite lookup_set_if_same, (Hm eq_refl).
      apply lookup_set_if_other. discriminate.
    - rewrite (lookup_set_if_other _ _ _ _ Nm).
      destruct (String.eqb_spec "x-head-title" k) as [<-|Nt].
      + now rewrite lookup_set_if_same, (Ht eq_refl).
      + now apply lookup_set_if_other. }
  assert (Hlink : forall k,
             (k = "link" -> appAssets data = None \/ r <> Ok tt) ->
             JS.lookup k (Http.headers res') = JS.lookup k (head_headers data res)).
  { intros k Hk.
    destruct (appAssets data) as [a|]; [|now injection H as _ <-].
    destruct (JS.rbind _ _) as [link|e]; [|now injection H as <- <-].
    destruct (Http.header_value_ok link); injection H as <- <-; [|reflexivity].
    simpl. apply lookup_set_other. intros <-.
    destruct (Hk eq_refl) as [?|N]; [discriminate | now apply N]. }
  unfold Http.getHeader. repeat split.
  - intros name Nt Nm Nl.
    rewrite Hlink by (intros E; contradiction).
    apply Hhead; intros E; contradiction.
  - intros Ht. change (Http.toLowerCase "x-head-title") with "x-head-title".
    rewrite Hlink by discriminate. apply Hhead; [auto | discriminate].
  - intros Hm. change (Http.toLowerCase "x-head-meta") with "x-head-meta".
    rewrite Hlink by discriminate. apply Hhead; [discriminate | auto].
  - intros Hl. change (Http.toLowerCase "Link") with "link".
    rewrite Hlink by auto. apply Hhead; discriminate.
Qed.

(** X9: when the path props are [null] (an [appProps] that decodes to
    the JSON text [null]) and the response data has assets, reading
    [publicPath] throws a [TypeError]: [processResponse] throws after it
    has written the title and the meta tags, and [Link] is not
    written. *)
Theorem processResponse_null_props
        (reqData : RequestData) (data : ResponseData) (a : AppAssets)
        (res : ServerResponse) :
  getCurrentPathProps reqData = VNull ->
  appAssets data = Some a ->
  processResponse urljoin_other this reqData data res
  = (Throw TypeError, Http.Response (head_headers data res)) /\
  Http.getHeader "Link" (Http.Response (head_headers data res))
  = Http.getHeader "Link" res /\
  Http.getHeader "x-head-title" (Http.Response (head_headers data res))
  = match title_header data with
    | Some h => Some h
    | None => Http.getHeader "x-head-title" res
    end.
Proof.
  intros Hn Ha. rewrite processResponse_outcome, Ha, Hn. simpl JS.rbind.
  split; [reflexivity|]. unfold Http.getHeader, head_headers. simpl Http.headers.
  split.
  - change (Http.toLowerCase "Link") with "link".
    now rewrite !lookup_set_if_other by discriminate.
  - change (Http.toLowerCase "x-head-title") with "x-head-title".
    rewrite lookup_set_if_other by discriminate. apply lookup_set_if_same.
Qed.

(** X10: the public path of the links is the [publicPath] of the path
    props.  When reading it gives a string or [undefined] and no
    dependency is named [hasOwnProperty], the [Link] value is the
    entries of the assets resolved against that string, or against the
    default public path when it is [undefined] or empty.  If every
    character of that value is one a header may hold,
    [processResponse] returns with [Link] set to it; if not,
    [setHeader] throws a [TypeError], which [processResponse] throws
    on with [Link] unwritten.  Either way the title is written. *)
Theorem processResponse_link_header
        (reqData : RequestData) (data : ResponseData) (a : AppAssets)
        (publicPath : option string) (res : ServerResponse) :
  JS.getProp (getCurrentPathProps reqData) "publicPath" = Ok (optional publicPath) ->
  appAssets data = Some a ->
  method_visible a ->
  (Http.header_value_ok (Str.join "," (link_entries this a publicPath)) = true ->
   exists res',
     processResponse urljoin_other this reqData data res = (Ok tt, res') /\
     Http.getHeader "Link" res'
     = Some (Str.join "," (link_entries this a publicPath)) /\
     Http.getHeader "x-head-title" res'
     = match title_header data with
       | Some h => Some h
       | None => Http.getHeader "x-head-title" res
       end) /\
  (Http.header_value_ok (Str.join "," (link_entries this a publicPath)) = false ->
   exists res',
     processResponse urljoin_other this reqData data res = (Throw TypeError, res') /\
     Http.getHeader "Link" res' = Http.getHeader "Link" res /\
     Http.getHeader "x-head-title" res'
     = match title_header data with
       | Some h => Some h
       | None => Http.getHeader "x-head-title" res
       end).
Proof.
  intros Hp Ha Hm. rewrite processResponse_outcome, Ha, Hp. simpl JS.rbind.
  rewrite (getLinkHeader_entries urljoin_other this a publicPath Hm).
  split; intros Hv; rewrite Hv; eexists; (split; [reflexivity|]);
    unfold Http.getHeader; simpl Http.headers;
    change (Http.toLowerCase "Link") with "link";
    change (Http.toLowerCase "x-head-title") with "x-head-title".
  - split; [apply lookup_set_same|].
    rewrite lookup_set_other by discriminate.
    unfold head_headers. rewrite lookup_set_if_other by discriminate.
    apply lookup_set_if_same.
  - unfold head_headers. split.
    + now rewrite !lookup_set_if_other by discriminate.
    + rewrite lookup_set_if_other by discriminate. apply lookup_set_if_same.
Qed.

(** X11: a dependency named [hasOwnProperty] hides the method that the
    loop calls: [getLinkHeader] throws a [TypeError] whatever the other
    assets are, and [processResponse] throws it on without writing
    [Link]. *)
Theorem getLinkHeader_shadowed_method
        (a : AppAssets) (deps : JS.obj string) (publicPath : option string) :
  dependencies a = Some deps ->
  JS.hasOwn "hasOwnProperty" deps = true ->
  getLinkHeader urljoin_other this a (optional publicPath) = Throw TypeError /\
  forall reqData data res,
    JS.getProp (getCurrentPathProps reqData) "publicPath" = Ok (optional publicPath) ->
    appAssets data = Some a ->
    processResponse urljoin_other this reqData data res
    = (Throw TypeError, Http.Response (head_headers data res)).
Proof.
  intros Hd Hs.
  assert (G : getLinkHeader urljoin_other this a (optional publicPath)
              = Throw TypeError).
  { unfold getLinkHeader, getLinkHeader_links. rewrite Hd.
    destruct (ownKeys_of_shadowing deps Hs) as [k [rest ->]].
    cbn [push_dependencies].
    destruct (nonempty (cssBundle a)) as [css|];
      destruct (nonempty (spaBundle a)) as [spa|];
      unfold JS.bind, JS.lift, JS.ret, JS.throw, push;
      rewrite ?buildLink_optional; rewrite Hs; reflexivity. }
  split; [exact G|].
  intros reqData data res Hp Ha.
  rewrite processResponse_outcome, Ha, Hp. simpl JS.rbind. now rewrite G.
Qed.

(** X12: when the names of the dependencies are distinct and none is
    [hasOwnProperty], the header that [getLinkHeader] returns has,
    after the entries of the style sheet and the script, exactly one
    entry for each dependency: [for-in] may change their order, it
    neither drops nor repeats one. *)
Theorem getLinkHeader_every_dependency
        (a : AppAssets) (deps : JS.obj string) (publicPath : option string) :
  dependencies a = Some deps ->
  JS.hasOwn "hasOwnProperty" deps = false ->
  NoDup (map fst deps) ->
  exists entries,
    getLinkHeader urljoin_other this a (optional publicPath)
    = Ok (Str.join ","
            (match nonempty (cssBundle a) with
             | Some css => [stylesheet_link (link_url this css publicPath)]
             | None => []
             end ++
             match nonempty (spaBundle a) with
             | Some spa => [script_link (link_url this spa publicPath)]
             | None => []
             end ++ entries)) /\
    Permutation entries
      (map (fun kd => dependency_link (link_url this (snd kd) publicPath) (fst kd))
           deps) /\
    length entries = length deps.
Proof.
  intros Hd Hm Hnd.
  exists (dependency_links this publicPath (own_entries deps)).
  assert (P : Permutation (dependency_links this publicPath (own_entries deps))
                          (dependency_links this publicPath deps)).
  { unfold dependency_links. apply Permutation_map. now apply own_entries_perm. }
  split; [|split].
  - rewrite getLinkHeader_entries by (unfold method_visible; now rewrite Hd).
    unfold link_entries. now rewrite Hd.
  - exact P.
  - rewrite (Permutation_length P). unfold dependency_links. apply length_map.
Qed.

End EncoderOutcomes.
(** * Further properties: round trip of the props, public paths *)

Section PropsRoundTrip.

Variable newURL : string -> string -> result URL.t.
Variable cwd : string.

(** X13: path props written by the composer as the base64 of an ASCII
    JSON text arrive as the value of that text: when [appProps] is
    [new Buffer(text).toString('base64')] and [text] parses to [v],
    a call of [processRequest] that returns gives [v] as the path props
    and logs no warning about them. *)
Theorem appProps_round_trip
        (req : IncomingMessage) (u : URL.t) (text : string) (v : value)
        (r : RequestData) (log log' : JS.Log) :
  parseUrl newURL req = Ok u ->
  URL.get "appProps" u = Some (Buffer.utf8_to_base64 text) ->
  is_ascii text = true ->
  JSON.parse text = Ok v ->
  processRequest newURL cwd req log = (Ok r, log') ->
  getCurrentPathProps r = v /\
  log' = log ++ (if URL.has "routerProps" u then []
                 else [Warning (missing_routerProps u) None]).
Proof.
  intros Hp Hg Ha Hj H.
  unfold processRequest, JS.bind, JS.lift in H. rewrite Hp in H.
  destruct (getRequestUrls cwd u log) as [[urls|] log1] eqn:Hu; [|discriminate].
  rewrite getPassedProps_eq in H.
  unfold props_of, props_warnings in H.
  rewrite Hg, (buffer_round_trip_ascii text Ha), Hj in H.
  injection H as <- <-. split; [reflexivity|].
  rewrite app_nil_r.
  destruct (getRequestUrls_inv cwd u urls log log1 Hu)
    as [[Hh [_ ->]] | [Hh [raw [w [b [q [_ [_ [_ [_ [_ ->]]]]]]]]]]];
    rewrite Hh; [reflexivity | now rewrite app_nil_r].
Qed.

End PropsRoundTrip.

(** ** [url-join] on a public path with a scheme *)

Lemma all_drop_slashes (P : ascii -> bool) (l : list ascii) :
  forallb P l = true -> forallb P (UrlJoin.drop_slashes l) = true.
Proof.
  induction l as [|c l IH]; simpl; [auto|].
  intros H. destruct (UrlJoin.is_slash c); [|exact H].
  apply andb_true_iff in H. apply IH, H.
Qed.

Lemma all_rev (P : ascii -> bool) (l : list ascii) :
  forallb P (rev l) = forallb P l.
Proof.
  induction l as [|c l IH]; simpl; [reflexivity|].
  rewrite forallb_app, IH. simpl. rewrite andb_true_r. apply andb_comm.
Qed.

Lemma queryless_app (a b : string) :
  queryless (a ++ b) = queryless a && queryless b.
Proof. unfold queryless. rewrite chars_app. apply forallb_app. Qed.

Lemma queryless_strip_trailing (s : string) :
  queryless s = true -> queryless (UrlJoin.strip_trailing s) = true.
Proof.
  unfold queryless, UrlJoin.strip_trailing. rewrite chars_of_chars. intros H.
  rewrite all_rev. apply all_drop_slashes. now rewrite all_rev.
Qed.

Lemma plain_queryless (s : string) : plain s = true -> queryless s = true.
Proof.
  unfold plain, plain_chars, queryless. intros H.
  rewrite forallb_forall in *. intros c Hc. specialize (H c Hc).
  unfold special, not_query in *.
  destruct (Ascii.eqb c ":"%char); [discriminate | exact H].
Qed.

Lemma drop_slash_before_params_queryless (l : list ascii) :
  forallb not_query l = true -> UrlJoin.drop_slash_before_params l = l.
Proof.
  induction l as [|c l IH]; simpl; [reflexivity|].
  intros H. apply andb_true_iff in H. destruct H as [_ Hl].
  rewrite (IH Hl).
  destruct (UrlJoin.is_slash c); [|reflexivity].
  destruct l as [|d l']; [reflexivity|].
  simpl in Hl. apply andb_true_iff in Hl. destruct Hl as [Hd _].
  unfold not_query in Hd.
  destruct (Ascii.eqb d "?"%char); [discriminate|].
  destruct (Ascii.eqb d "&"%char); [discriminate|].
  destruct (Ascii.eqb d "#"%char); [discriminate|].
  reflexivity.
Qed.

Lemma params_queryless (s : string) : queryless s = true -> UrlJoin.params s = s.
Proof.
  unfold queryless, UrlJoin.params, Str.split. intros H.
  assert (G : forall cur,
             Str.split_go "?"%char cur (Str.chars s)
             = [Str.of_chars (rev cur ++ Str.chars s)]).
  { induction (Str.chars s) as [|c l IH]; intros cur; simpl.
    - now rewrite app_nil_r.
    - simpl in H. apply andb_true_iff in H. destruct H as [Hc Hl].
      unfold not_query in Hc.
      destruct (Ascii.eqb c "?"%char); [discriminate|].
      rewrite (IH Hl). simpl. now rewrite <- app_assoc. }
  rewrite G. simpl. rewrite of_chars_chars. now rewrite !append_empty_r.
Qed.

Lemma drop_slashes_no_slash (s : string) :
  Str.startsWith s "/" = false ->
  UrlJoin.drop_slashes (Str.chars s) = Str.chars s.
Proof.
  unfold Str.startsWith. destruct s as [|c s]; [reflexivity|].
  cbn [String.prefix Str.chars list_ascii_of_string UrlJoin.drop_slashes].
  unfold UrlJoin.is_slash.
  destruct (ascii_dec "/" c) as [<-|N].
  - destruct s; discriminate.
  - intros _. destruct (Ascii.eqb_spec c "/"%char) as [->|]; [contradiction|reflexivity].
Qed.

Lemma drop_slashes_app (l m : list ascii) (c : ascii) :
  UrlJoin.is_slash c = false ->
  UrlJoin.drop_slashes (l ++ c :: m) = UrlJoin.drop_slashes (l ++ [c]) ++ m.
Proof.
  intros H. induction l as [|d l IH]; simpl.
  - now rewrite H.
  - destruct (UrlJoin.is_slash d); [exact IH|].
    simpl. now rewrite <- app_assoc.
Qed.

Lemma string_app_assoc (a b c : string) :
  ((a ++ b) ++ c)%string = (a ++ b ++ c)%string.
Proof. induction a as [|x a IH]; simpl; [reflexivity|]. now rewrite IH. Qed.

Lemma of_chars_app (a b : list ascii) :
  Str.of_chars (a ++ b) = (Str.of_chars a ++ Str.of_chars b)%string.
Proof.
  induction a as [|c a IH]; simpl; [reflexivity|].
  unfold Str.of_chars in *. simpl. now rewrite IH.
Qed.

(** Trailing slashes are taken off the last part that has something
    other than slashes. *)
Lemma strip_trailing_after (p s : string) :
  s <> "" -> Str.startsWith s "/" = false ->
  UrlJoin.strip_trailing (p ++ s) = (p ++ UrlJoin.strip_trailing s)%string.
Proof.
  intros Hne Hsl. destruct s as [|c s]; [contradiction|].
  assert (Hc : UrlJoin.is_slash c = false).
  { unfold Str.startsWith in Hsl. cbn [String.prefix] in Hsl.
    unfold UrlJoin.is_slash.
    destruct (ascii_dec "/" c) as [<-|N]; [destruct s; discriminate|].
    destruct (Ascii.eqb_spec c "/"%char) as [->|]; [contradiction|reflexivity]. }
  unfold UrlJoin.strip_trailing.
  rewrite chars_app, rev_app_distr.
  change (Str.chars (String c s)) with (c :: Str.chars s).
  cbn [rev]. rewrite <- app_assoc. cbn [app].
  rewrite (drop_slashes_app _ _ _ Hc), rev_app_distr, rev_involutive.
  now rewrite of_chars_app, of_chars_chars.
Qed.

(** [url-join] on a public path [http://...] or [https://...] without
    query or fragment and a plain path. *)
Lemma urljoin_scheme (scheme rest path : string) :
  scheme = "http" \/ scheme = "https" ->
  rest <> "" -> Str.startsWith rest "/" = false -> queryless rest = true ->
  plain path = true -> path <> "" ->
  UrlJoin.normalize [(scheme ++ "://" ++ rest)%string; path]
  = (UrlJoin.strip_trailing (scheme ++ "://" ++ rest) ++ "/"
       ++ UrlJoin.collapse_trailing (UrlJoin.strip_leading path))%string.
Proof.
  intros Hs Hne Hsl Hq Hp Hne'.
  set (pp := (scheme ++ "://" ++ rest)%string).
  assert (Hsch : UrlJoin.scheme pp = Some (scheme, rest)).
  { unfold pp, UrlJoin.scheme.
    destruct Hs as [-> | ->]; cbn;
      change (list_ascii_of_string rest) with (Str.chars rest);
      rewrite (drop_slashes_no_slash rest Hsl);
      change (string_of_list_ascii (Str.chars rest)) with (Str.of_chars (Str.chars rest));
      rewrite of_chars_chars; reflexivity. }
  assert (Hpp : UrlJoin.plain_protocol pp = false).
  { unfold UrlJoin.plain_protocol. rewrite Hsch. now apply String.eqb_neq. }
  assert (Hfp : UrlJoin.fix_protocol pp = pp).
  { unfold UrlJoin.fix_protocol. rewrite Hsch.
    assert (F : Str.startsWith pp "file:///" = false)
      by (unfold pp; destruct Hs as [-> | ->]; reflexivity).
    now rewrite F. }
  assert (Hnn : String.eqb pp "" = false)
    by (unfold pp; destruct Hs as [-> | ->]; reflexivity).
  assert (Hqp : queryless pp = true).
  { unfold pp. rewrite !queryless_app, Hq.
    destruct Hs as [-> | ->]; reflexivity. }
  unfold UrlJoin.normalize. rewrite Hpp, Hfp. cbn [UrlJoin.components].
  apply String.eqb_neq in Hne'. rewrite Hnn, Hne'. cbn [Str.join].
  set (str := (UrlJoin.strip_trailing pp ++ "/"
                 ++ UrlJoin.collapse_trailing (UrlJoin.strip_leading path))%string).
  assert (Hstr : queryless str = true).
  { unfold str. rewrite !queryless_app.
    rewrite (queryless_strip_trailing pp Hqp).
    rewrite (plain_queryless _
               (plain_collapse_trailing _ (plain_strip_leading path Hp))).
    reflexivity. }
  rewrite (drop_slash_before_params_queryless _ Hstr), of_chars_chars.
  apply (params_queryless str Hstr).
Qed.

Section PublicPaths.

Variable urljoin_other : value -> string -> result string.

(** X14: with a public path [http://...] or [https://...] (a CDN) that
    has no query or fragment, whether it comes from the [publicPath]
    argument or is the default of the instance, [buildLink] resolves a
    plain path that is not empty to the public path without its
    trailing slashes, one slash, and the path without its leading
    slashes: the two slashes of the scheme stay, none is added. *)
Theorem buildLink_on_cdn
        (this : IlcSdk) (publicPath : option string)
        (scheme rest path : string) :
  effective_public_path this publicPath = (scheme ++ "://" ++ rest)%string ->
  scheme = "http" \/ scheme = "https" ->
  rest <> "" -> Str.startsWith rest "/" = false -> queryless rest = true ->
  plain path = true -> path <> "" ->
  buildLink urljoin_other this path (optional publicPath)
  = Ok (scheme ++ "://" ++ UrlJoin.strip_trailing rest ++ "/"
          ++ UrlJoin.collapse_trailing (UrlJoin.strip_leading path))%string.
Proof.
  intros He Hs Hne Hsl Hq Hp Hne'.
  rewrite buildLink_optional. unfold link_url.
  rewrite (plain_not_includes path "http://" eq_refl Hp).
  rewrite (plain_not_includes path "https://" eq_refl Hp).
  cbn [orb]. rewrite He, (urljoin_scheme scheme rest path Hs Hne Hsl Hq Hp Hne').
  f_equal.
  rewrite <- (string_app_assoc scheme "://" rest).
  rewrite (strip_trailing_after (scheme ++ "://") rest Hne Hsl).
  now rewrite !string_app_assoc.
Qed.

(** X15: an instance constructed without [publicPath] has the default
    public path [/]: with no [publicPath] argument, or an empty one, a
    plain path that is not empty resolves to a root-relative URL, one
    slash and the path without its leading slashes.  An instance
    constructed with the empty public path resolves it to the path
    without its leading slashes, a relative URL. *)
Theorem buildLink_default_public_path (path : string) :
  plain path = true -> path <> "" ->
  defaultPublicPath (new_IlcSdk None) = "/" /\
  buildLink urljoin_other (new_IlcSdk None) path (optional None)
  = Ok ("/" ++ UrlJoin.collapse_trailing (UrlJoin.strip_leading path))%string /\
  buildLink urljoin_other (new_IlcSdk None) path (optional (Some ""))
  = Ok ("/" ++ UrlJoin.collapse_trailing (UrlJoin.strip_leading path))%string /\
  buildLink urljoin_other (new_IlcSdk (Some "")) path (optional None)
  = Ok (UrlJoin.collapse_trailing (UrlJoin.strip_leading path)).
Proof.
  intros Hp Hne.
  assert (Hroot : UrlJoin.normalize ["/"; path]
                  = ("/" ++ UrlJoin.collapse_trailing (UrlJoin.strip_leading path))%string).
  { rewrite (urljoin_plain "/" path eq_refl Hp) by (discriminate || exact Hne).
    reflexivity. }
  assert (Hinc : Str.includes path "http://" || Str.includes path "https://" = false).
  { rewrite (plain_not_includes path "http://" eq_refl Hp).
    now rewrite (plain_not_includes path "https://" eq_refl Hp). }
  split; [reflexivity|].
  rewrite !buildLink_optional. unfold link_url. rewrite Hinc.
  split; [|split].
  - now rewrite <- Hroot.
  - now rewrite <- Hroot.
  - f_equal. unfold effective_public_path. cbn [nonempty new_IlcSdk defaultPublicPath].
    unfold UrlJoin.normalize.
    change (UrlJoin.plain_protocol "") with false.
    cbn [UrlJoin.components].
    change (String.eqb (UrlJoin.fix_protocol "") "") with true.
    apply String.eqb_neq in Hne. rewrite Hne. cbn [Str.join].
    set (str := UrlJoin.collapse_trailing (UrlJoin.strip_leading path)).
    assert (Hs : plain str = true)
      by (apply plain_collapse_trailing, plain_strip_leading, Hp).
    rewrite (drop_slash_before_params_plain _ Hs), of_chars_chars.
    apply (params_plain str Hs).
Qed.

End PublicPaths.
(** * Witnesses of the further properties, on the sample platform *)

Lemma processRequest_throws_iff_witness :
  processRequest Sample.newURL Sample.cwd
    (Http.Request "/?routerProps=e30=" (Some "localhost")) []
  = (Throw TypeError, []).
Proof.
  apply (proj2 (processRequest_throws_iff Sample.newURL Sample.cwd
                  (Http.Request "/?routerProps=e30=" (Some "localhost"))
                  TypeError [] [])).
  split; [reflexivity|]. right.
  exists (URL.Make "http://localhost/?routerProps=e30=" [("routerProps", "e30=")]), "e30=".
  split; [reflexivity|]. split; [reflexivity|].
  right. exists (VObject []). split; [reflexivity|]. split; [reflexivity|].
  intros [b [q [H _]]]. discriminate H.
Defined.

Lemma pathProps_follow_appProps_witness :
  exists u,
    parseUrl Sample.newURL request_cdn = Ok u /\
    getCurrentPathProps data_cdn
    = match URL.get "appProps" u with
      | Some raw =>
          match JSON.parse (Buffer.base64_to_utf8 raw) with
          | Ok v => v
          | Throw _ => VObject []
          end
      | None => VObject []
      end.
Proof.
  exact (pathProps_follow_appProps Sample.newURL Sample.cwd
           request_cdn data_cdn [] [] eq_refl).
Defined.

Lemma processRequest_log_witness :
  exists u,
    parseUrl Sample.newURL
      (Http.Request "/?appProps=bm90LWpzb24=" (Some "localhost")) = Ok u /\
    [Warning (missing_routerProps
                (URL.Make "http://localhost/?appProps=bm90LWpzb24="
                          [("appProps", "bm90LWpzb24=")])) None;
     Warning parsing_failed (Some SyntaxError)]
    = [] ++ (if URL.has "routerProps" u then []
             else [Warning (missing_routerProps u) None])
         ++ match URL.get "appProps" u with
            | Some raw =>
                match JSON.parse (Buffer.base64_to_utf8 raw) with
                | Throw e => [Warning parsing_failed (Some e)]
                | Ok _ => []
                end
            | None => []
            end.
Proof.
  exact (processRequest_log Sample.newURL Sample.cwd
           (Http.Request "/?appProps=bm90LWpzb24=" (Some "localhost"))
           {| getCurrentReqUrl := "/";
              getCurrentBasePath := VString "/";
              getCurrentPathProps := VObject [] |}
           []
           [Warning (missing_routerProps
                       (URL.Make "http://localhost/?appProps=bm90LWpzb24="
                                 [("appProps", "bm90LWpzb24=")])) None;
            Warning parsing_failed (Some SyntaxError)]
           eq_refl).
Defined.

Lemma currentBasePath_is_string_witness :
  exists u basePath,
    parseUrl Sample.newURL request_cdn = Ok u /\
    getCurrentBasePath data_cdn = VString basePath.
Proof.
  destruct (currentBasePath_is_string Sample.newURL Sample.cwd
              request_cdn data_cdn [] [] eq_refl) as [u [b [H1 [H2 _]]]].
  exists u, b. split; [exact H1 | exact H2].
Defined.

Lemma requestUrl_under_or_outside_basePath_witness :
  exists url,
    processRequest Sample.newURL Sample.cwd request_cdn []
    = (Ok {| getCurrentReqUrl := url;
             getCurrentBasePath := VString "/foo";
             getCurrentPathProps := props_of url_cdn |},
       [] ++ props_warnings url_cdn) /\
    Str.startsWith url "/.." = true.
Proof.
  destruct (requestUrl_under_or_outside_basePath Sample.newURL Sample.cwd
              request_cdn url_cdn routerProps_outside
              (VObject [("basePath", VString "/foo"); ("reqUrl", VString "/other/x")])
              "/foo" "/other/x" [] eq_refl eq_refl eq_refl eq_refl eq_refl
              (fun H => eq_ind "/foo"
                          (fun s => match s with
                                    | String _ (String "f" _) => True
                                    | _ => False
                                    end) I "/other/x" H))
    as [url [H1 [_ [H3 _]]]].
  exists url. split; [exact H1|].
  apply H3. intros below H. vm_compute in H. discriminate H.
Defined.

Lemma head_headers_decode_witness :
  exists h,
    Http.getHeader "x-head-title"
      (Http.Response [("x-head-title", "PHRpdGxlPkhpPC90aXRsZT4=")]) = Some h /\
    Base64.decode_bytes (Str.chars h) = Utf8.encode ("<title>" ++ "Hi" ++ "</title>").
Proof.
  exact (proj1 (head_headers_decode Sample.urljoin_other (new_IlcSdk None)
                  data_null
                  {| pageTitle := Some "Hi"; pageMetaTags := None; appAssets := None |}
                  (Http.Response [])
                  (Http.Response [("x-head-title", "PHRpdGxlPkhpPC90aXRsZT4=")])
                  (Ok tt) eq_refl) "Hi" eq_refl).
Defined.

Lemma processResponse_writes_only_witness :
  Http.getHeader "Content-Type"
    (Http.Response [("content-type", "text/html");
                    ("x-head-title", "PHRpdGxlPkhpPC90aXRsZT4=")])
  = Http.getHeader "Content-Type" (Http.Response [("content-type", "text/html")]).
Proof.
  exact (proj1 (processResponse_writes_only Sample.urljoin_other (new_IlcSdk None)
                  data_null
                  {| pageTitle := Some "Hi"; pageMetaTags := Some ""; appAssets := None |}
                  (Http.Response [("content-type", "text/html")])
                  (Http.Response [("content-type", "text/html");
                                  ("x-head-title", "PHRpdGxlPkhpPC90aXRsZT4=")])
                  (Ok tt) eq_refl)
               "Content-Type"
               (fun H => eq_ind "content-type"
                           (fun s => match s with String "c" _ => True | _ => False end)
                           I "x-head-title" H)
               (fun H => eq_ind "content-type"
                           (fun s => match s with String "c" _ => True | _ => False end)
                           I "x-head-meta" H)
               (fun H => eq_ind "content-type"
                           (fun s => match s with String "c" _ => True | _ => False end)
                           I "link" H)).
Defined.

Lemma processResponse_null_props_witness :
  processResponse Sample.urljoin_other (new_IlcSdk None) data_null page
                  (Http.Response [])
  = (Throw TypeError, Http.Response (head_headers page (Http.Response []))).
Proof.
  exact (proj1 (processResponse_null_props Sample.urljoin_other (new_IlcSdk None)
                  data_null page full_assets (Http.Response []) eq_refl eq_refl)).
Defined.

Lemma processResponse_link_header_witness :
  (exists res',
     processResponse Sample.urljoin_other (new_IlcSdk None) data_cdn page
                     (Http.Response []) = (Ok tt, res') /\
     Http.getHeader "Link" res'
     = Some (Str.join "," (link_entries (new_IlcSdk None) full_assets
                                        (Some "https://cdn.example/app/"))) /\
     Http.getHeader "x-head-title" res'
     = match title_header page with
       | Some h => Some h
       | None => Http.getHeader "x-head-title" (Http.Response [])
       end) /\
  (exists res',
     processResponse Sample.urljoin_other (new_IlcSdk None) data_cdn unicode_page
                     (Http.Response []) = (Throw TypeError, res') /\
     Http.getHeader "Link" res' = Http.getHeader "Link" (Http.Response []) /\
     Http.getHeader "x-head-title" res'
     = match title_header unicode_page with
       | Some h => Some h
       | None => Http.getHeader "x-head-title" (Http.Response [])
       end).
Proof.
  split.
  - exact (proj1 (processResponse_link_header Sample.urljoin_other (new_IlcSdk None)
                    data_cdn page full_assets (Some "https://cdn.example/app/")
                    (Http.Response []) eq_refl eq_refl eq_refl) eq_refl).
  - exact (proj2 (processResponse_link_header Sample.urljoin_other (new_IlcSdk None)
                    data_cdn unicode_page unicode_assets
                    (Some "https://cdn.example/app/")
                    (Http.Response []) eq_refl eq_refl I) eq_refl).
Defined.

Lemma getLinkHeader_shadowed_method_witness :
  getLinkHeader Sample.urljoin_other (new_IlcSdk None) shadowing_assets
                (optional None) = Throw TypeError.
Proof.
  exact (proj1 (getLinkHeader_shadowed_method Sample.urljoin_other (new_IlcSdk None)
                  shadowing_assets
                  (JS.literal [("lodash", "lodash.js"); ("hasOwnProperty", "shim.js")])
                  None eq_refl eq_refl)).
Defined.

Lemma getLinkHeader_every_dependency_witness :
  exists entries,
    getLinkHeader Sample.urljoin_other (new_IlcSdk None) full_assets
                  (optional (Some "https://cdn.example/app/"))
    = Ok (Str.join ","
            (match nonempty (cssBundle full_assets) with
             | Some css => [stylesheet_link
                              (link_url (new_IlcSdk None) css
                                        (Some "https://cdn.example/app/"))]
             | None => []
             end ++
             match nonempty (spaBundle full_assets) with
             | Some spa => [script_link
                              (link_url (new_IlcSdk None) spa
                                        (Some "https://cdn.example/app/"))]
             | None => []
             end ++ entries)) /\
    Permutation entries
      (map (fun kd => dependency_link
                        (link_url (new_IlcSdk None) (snd kd)
                                  (Some "https://cdn.example/app/")) (fst kd))
           (JS.literal [("react", "https://unpkg.example/react.js");
                        ("7", "vendor/seven.js")])) /\
    length entries = length (JS.literal [("react", "https://unpkg.example/react.js");
                                         ("7", "vendor/seven.js")]).
Proof.
  apply (getLinkHeader_every_dependency Sample.urljoin_other (new_IlcSdk None)
           full_assets
           (JS.literal [("react", "https://unpkg.example/react.js");
                        ("7", "vendor/seven.js")])
           (Some "https://cdn.example/app/") eq_refl eq_refl).
  repeat constructor; simpl; intuition discriminate.
Defined.

Lemma appProps_round_trip_witness :
  getCurrentPathProps data_cdn
  = VObject [("publicPath", VString "https://cdn.example/app/")] /\
  [] = [] ++ (if URL.has "routerProps" url_cdn then []
              else [Warning (missing_routerProps url_cdn) None]).
Proof.
  exact (appProps_round_trip Sample.newURL Sample.cwd request_cdn url_cdn
           appProps_cdn
           (VObject [("publicPath", VString "https://cdn.example/app/")])
           data_cdn [] [] eq_refl eq_refl eq_refl eq_refl eq_refl).
Defined.

Lemma buildLink_on_cdn_witness :
  buildLink Sample.urljoin_other (new_IlcSdk None) "/js/app.js"
            (optional (Some "https://cdn.example/app//"))
  = Ok "https://cdn.example/app/js/app.js".
Proof.
  apply (buildLink_on_cdn Sample.urljoin_other (new_IlcSdk None)
           (Some "https://cdn.example/app//") "https" "cdn.example/app//" "/js/app.js"
           eq_refl (or_intror eq_refl)); try reflexivity; discriminate.
Defined.

Lemma buildLink_default_public_path_witness :
  buildLink Sample.urljoin_other (new_IlcSdk (Some "")) "/js/app.js" (optional None)
  = Ok "js/app.js".
Proof.
  apply (proj2 (proj2 (proj2
           (buildLink_default_public_path Sample.urljoin_other "/js/app.js"
              eq_refl
              (fun H => eq_ind "/js/app.js"
                          (fun s => match s with EmptyString => False | _ => True end)
                          I "" H))))).
Defined.
